(** * camaro_to_braille.py: camera capture, OCR and chunked serial transmission

    A shallow embedding of [src/camaro_to_braille.py].

    - Python [str] values are lists of Unicode code points, so that slicing
      and [len] count characters and not bytes.
    - Every call that leaves the interpreter (console, glob, the serial
      port, the camera SDK, the [rpicam-still] process, OpenCV file I/O,
      the OCR engine) appends an [event] to a trace; what the outside world
      answers is read from a [World] record whose fields see the trace so
      far.
    - Python exceptions are an [outcome]: [Ret], [Raise], or [NoFuel] for a
      loop that was cut by the fuel of the model. *)

From Stdlib Require Import Ascii String.
From Stdlib Require Import List NArith ZArith Lia Bool.
From Stdlib Require Import Numbers.DecimalString.
From Stdlib Require Import Sorting.Sorted Sorting.Permutation.
Import ListNotations.

Set Implicit Arguments.
Local Open Scope N_scope.

(** ** Python strings *)

Module PyStr.

(** A character is a Unicode code point. *)
Definition char := N.
Definition str := list char.

(** An ASCII literal of the source as a [str]. *)
Fixpoint of_string (s : string) : str :=
  match s with
  | EmptyString => []
  | String a s' => N_of_ascii a :: of_string s'
  end.

(** [str.isspace] on one character ([Py_UNICODE_ISSPACE]): the characters
    that [str.strip()] and [str.split()] without argument treat as
    whitespace. *)
Definition isspace (c : char) : bool :=
  ((9 <=? c) && (c <=? 13))
  || ((28 <=? c) && (c <=? 32))
  || (c =? 133) || (c =? 160) || (c =? 5760)
  || ((8192 <=? c) && (c <=? 8202))
  || (c =? 8232) || (c =? 8233) || (c =? 8239) || (c =? 8287)
  || (c =? 12288).

Fixpoint lstrip (s : str) : str :=
  match s with
  | [] => []
  | c :: s' => if isspace c then lstrip s' else s
  end.

Definition rstrip (s : str) : str := rev (lstrip (rev s)).

(** [s.strip()] *)
Definition strip (s : str) : str := rstrip (lstrip s).

(** [s.split()] without argument: one pass over the characters; [cur] is
    the word being read, last character first.  Runs of whitespace
    separate words and produce no empty word. *)
Fixpoint split_from (cur : str) (s : str) : list str :=
  match s with
  | [] => match cur with [] => [] | _ => [rev cur] end
  | c :: s' =>
      if isspace c
      then match cur with
           | [] => split_from [] s'
           | _ => rev cur :: split_from [] s'
           end
      else split_from (c :: cur) s'
  end.

Definition split (s : str) : list str := split_from [] s.

(** [sep.join(ws)] *)
Fixpoint join (sep : str) (ws : list str) : str :=
  match ws with
  | [] => []
  | [w] => w
  | w :: ws' => w ++ sep ++ join sep ws'
  end.

(** [s[:n]] and [s[n:]] for a non-negative [n]. *)
Definition slice_to (n : nat) (s : str) : str := firstn n s.
Definition slice_from (n : nat) (s : str) : str := skipn n s.

(** Python compares strings code point by code point; [leb a b] is
    [a <= b]. *)
Fixpoint leb (a b : str) : bool :=
  match a, b with
  | [], _ => true
  | _ :: _, [] => false
  | x :: a', y :: b' =>
      if x <? y then true else if y <? x then false else leb a' b'
  end.

(** [str(n)] for a non-negative integer. *)
Definition of_nat (n : nat) : str :=
  of_string (NilEmpty.string_of_uint (Nat.to_uint n)).

(** [s.encode("utf-8")]: [None] stands for [UnicodeEncodeError], raised on
    a surrogate code point. *)
Definition encode_char (c : char) : option (list N) :=
  if c <? 128 then Some [c]
  else if c <? 2048 then Some [192 + c / 64; 128 + c mod 64]
  else if (55296 <=? c) && (c <=? 57343) then None
  else if c <? 65536
       then Some [224 + c / 4096; 128 + (c / 64) mod 64; 128 + c mod 64]
       else Some [240 + c / 262144; 128 + (c / 4096) mod 64;
                  128 + (c / 64) mod 64; 128 + c mod 64].

Fixpoint encode_utf8 (s : str) : option (list N) :=
  match s with
  | [] => Some []
  | c :: s' =>
      match encode_char c, encode_utf8 s' with
      | Some b, Some bs => Some (b ++ bs)
      | _, _ => None
      end
  end.

End PyStr.

Import PyStr.

Notation "'py' s" := (of_string s%string) (at level 1, only parsing).

(** [str(n)] for a non-negative integer constant. *)
Definition str_of_N (n : N) : str :=
  of_string (NilEmpty.string_of_uint (N.to_uint n)).

(** ** Images *)

(** A colour frame is [height] rows of [width] pixels, each a (B, G, R)
    triple; a single-channel image is rows of values. *)
Definition pixel := (Z * Z * Z)%type.
Definition raster := list (list pixel).
Definition gray_image := list (list Z).

(** ** Exceptions, events and the outside world *)

Inductive exn :=
| RuntimeError (msg : str)
| FileNotFoundError
| CalledProcessError (cmd : list str) (returncode : Z) (stderr : str)
| UnicodeEncodeError (object : str)
| LibraryError (text : str)
    (* any other subclass of [Exception]: serial.SerialException,
       cv2.error, pytesseract.TesseractError, OSError, EOFError, ... *)
| KeyboardInterrupt
| SystemExit (code : Z).

(** [isinstance(e, Exception)]: what [except Exception] catches. *)
Definition is_Exception (e : exn) : bool :=
  match e with
  | KeyboardInterrupt | SystemExit _ => false
  | _ => true
  end.

Inductive event :=
| EPrint (line : str)
| EInput (prompt : str)
| ESleep (ms : Z)
| EGlob (pattern : str)
| ESerialOpen (port : str) (baud : N) (timeout : Z)
| ESerialWrite (data : list N)
| ESerialFlush
| ESerialClose
| ERun (cmd : list str)
| EImread (path : str)
| EImwriteColor (path : str) (img : raster)
| EImwriteGray (path : str) (img : gray_image)
| EPicamStart (size : N * N)
| EPicamCapture
| EPicamStop
| EImshow (title : str)
| EWaitKey (delay : Z)
| EDestroyAllWindows
| EClock
| EOcr (img : gray_image) (lang config : str).

Definition trace := list event.

Inductive outcome (A : Type) :=
| Ret (a : A)
| Raise (e : exn)
| NoFuel.
Arguments Ret {A} a.
Arguments Raise {A} e.
Arguments NoFuel {A}.

(** How [rpicam-still] ends. *)
Inductive proc_result :=
| ProcNotFound
| ProcExit (status : Z) (stderr : str)
| ProcError (e : exn).

(** The answers of the outside world.  Each one may depend on everything
    that happened before ([trace]). *)
Record World := {
  (* import time *)
  PICAMERA2_OK : bool;
  env_DISPLAY : option str;
  (* glob, serial port *)
  glob_result : trace -> str -> list str;
  serial_open : trace -> str -> option exn;
  serial_write : trace -> list N -> option exn;
  serial_flush : trace -> option exn;
  (* camera *)
  picam_start : trace -> option exn;
  picam_capture : trace -> outcome raster;
  picam_stop : trace -> option exn;
  imshow_result : trace -> option exn;
  wait_key : trace -> Z;
  elapsed_ms : trace -> Z;
  proc_run : trace -> list str -> proc_result;
  imread_result : trace -> str -> option raster;
  (* OpenCV pixel arithmetic *)
  bgr2gray_px : pixel -> Z;
  bilateral_px : Z -> Z -> Z -> gray_image -> nat -> nat -> Z;
  otsu_level : gray_image -> Z;
  (* OCR engine, console *)
  ocr_engine : trace -> gray_image -> outcome str;
  stdin_line : trace -> outcome str;
  (* texts of library exceptions *)
  called_process_text : list str -> Z -> str;
  encode_error_text : str -> str;
  cv2_error_text : str -> str
}.

(** ** The monad: a trace is threaded, an exception stops the rest *)

Definition M (A : Type) := trace -> trace * outcome A.

Definition ret {A} (a : A) : M A := fun t => (t, Ret a).
Definition raise {A} (e : exn) : M A := fun t => (t, Raise e).
Definition out_of_fuel {A} : M A := fun t => (t, NoFuel).

Definition bind {A B} (m : M A) (k : A -> M B) : M B :=
  fun t =>
    match m t with
    | (t', Ret a) => k a t'
    | (t', Raise e) => (t', Raise e)
    | (t', NoFuel) => (t', NoFuel)
    end.

Notation "x <- m ;; k" := (bind m (fun x => k))
  (at level 61, m at next level, right associativity).
Notation "m ;; k" := (bind m (fun _ => k))
  (at level 61, right associativity).

(** [try: m except Exception as e: h e] *)
Definition try_except {A} (m : M A) (h : exn -> M A) : M A :=
  fun t =>
    match m t with
    | (t', Raise e) => if is_Exception e then h e t' else (t', Raise e)
    | r => r
    end.

(** [try: m finally: f] *)
Definition try_finally {A} (m : M A) (f : M unit) : M A :=
  fun t =>
    match m t with
    | (t', NoFuel) => (t', NoFuel)
    | (t', o) =>
        match f t' with
        | (t'', Ret _) => (t'', o)
        | (t'', Raise e) => (t'', Raise e)
        | (t'', NoFuel) => (t'', NoFuel)
        end
    end.

(** An external call: the event is recorded, the answer is the world's
    answer to the trace before the call. *)
Definition call {A} (e : event) (answer : trace -> outcome A) : M A :=
  fun t => (t ++ [e], answer t).

Definition emit (e : event) : M unit := call e (fun _ => Ret tt).

Definition may_raise (r : option exn) : outcome unit :=
  match r with None => Ret tt | Some e => Raise e end.

(** A computation without events. *)
Definition lift {A} (o : outcome A) : M A := fun t => (t, o).

(** The console takes every line: [print] and [time.sleep] do not raise.
    Where a property is about which exceptions get out, what must be
    printable for that is a hypothesis of its own ([console_safe]). *)
Definition print (line : str) : M unit := emit (EPrint line).
Definition sleep (ms : Z) : M unit := emit (ESleep ms).

(** ** Configuration constants (lines 16-22) *)

Record Config := {
  RESOLUTION : N * N;
  SERIAL_BAUD : N;
  MAX_CHARS_PER_CHUNK : nat;
  CAPTURE_TIMEOUT_SEC : Z;
  LANG : str;
  TESSERACT_CONFIG : str;
  SHOW_PREVIEW_CONFIG : bool
}.

Definition config : Config := {|
  RESOLUTION := (640, 480);
  SERIAL_BAUD := 115200;
  MAX_CHARS_PER_CHUNK := 120;
  CAPTURE_TIMEOUT_SEC := 6;
  LANG := py"eng";
  TESSERACT_CONFIG := py"--oem 3 --psm 6";
  SHOW_PREVIEW_CONFIG := true
|}.

(** The ellipsis character of the source's messages. *)
Definition ellipsis : str := [8230].

Definition is_empty (s : str) : bool :=
  match s with [] => true | _ => false end.

(** An image without any pixel (height 0 or width 0): what OpenCV calls
    empty. *)
Definition no_pixels {A} (img : list (list A)) : bool :=
  forallb (fun row => match row with [] => true | _ => false end) img.

Fixpoint str_eqb (a b : str) : bool :=
  match a, b with
  | [], [] => true
  | x :: a', y :: b' => (x =? y) && str_eqb a' b'
  | _, _ => false
  end.

(** [s.lower()], on the letters A-Z.  The source only compares the result
    with ["y"], and no other character lowers to that letter. *)
Definition lower (s : str) : str :=
  map (fun c => if (65 <=? c) && (c <=? 90) then c + 32 else c) s.

(** [sorted(l)] on strings: a stable insertion sort by [PyStr.leb]. *)
Fixpoint insert (x : str) (l : list str) : list str :=
  match l with
  | [] => [x]
  | y :: l' => if leb x y then x :: l else y :: insert x l'
  end.

Fixpoint sorted (l : list str) : list str :=
  match l with
  | [] => []
  | x :: l' => insert x (sorted l')
  end.

(** [enumerate]-style map, used for filters that look at a neighbourhood. *)
Fixpoint mapi_from {A B} (f : nat -> A -> B) (i : nat) (l : list A) : list B :=
  match l with
  | [] => []
  | a :: l' => f i a :: mapi_from f (S i) l'
  end.

Definition mapi {A B} (f : nat -> A -> B) (l : list A) : list B :=
  mapi_from f 0 l.

(** OpenCV's threshold types. *)
Definition THRESH_BINARY : Z := 0.
Definition THRESH_BINARY_INV : Z := 1.
Definition THRESH_TRUNC : Z := 2.
Definition THRESH_TOZERO : Z := 3.
Definition THRESH_TOZERO_INV : Z := 4.
Definition THRESH_OTSU : Z := 8.

Definition threshold_px (type thresh maxval v : Z) : Z :=
  if (type =? THRESH_BINARY)%Z then (if (v >? thresh)%Z then maxval else 0%Z)
  else if (type =? THRESH_BINARY_INV)%Z
       then (if (v >? thresh)%Z then 0%Z else maxval)
  else if (type =? THRESH_TRUNC)%Z
       then (if (v >? thresh)%Z then thresh else v)
  else if (type =? THRESH_TOZERO)%Z
       then (if (v >? thresh)%Z then v else 0%Z)
  else (if (v >? thresh)%Z then 0%Z else v).

(** Exit status of the interpreter for what [main()] did. *)
Definition exit_status {A} (o : outcome A) : option Z :=
  match o with
  | Ret _ => Some 0%Z
  | Raise (SystemExit code) => Some code
  | Raise _ => Some 1%Z
  | NoFuel => None
  end.

(** Line 59: [" ".join(text.split())]. *)
Definition collapse_ws (text : str) : str := join py" " (split text).

(** The whole normalization of the transmit step, lines 46 and 59:
    [" ".join((text or "").strip().split())]. *)
Definition normalize (text : option str) : str :=
  collapse_ws (strip (match text with Some s => s | None => [] end)).

(** Lines 60-62: the chunks that the [while payload:] loop cuts, in order,
    with the writes of lines 63-65 left out; [None] when the fuel runs out
    before the payload is empty. *)
Fixpoint chunk_loop (max_chars fuel : nat) (payload : str) : option (list str) :=
  match payload with
  | [] => Some []
  | _ :: _ =>
      match fuel with
      | O => None
      | S fuel' =>
          let chunk := slice_to max_chars payload in
          let payload := slice_from max_chars payload in
          match chunk_loop max_chars fuel' payload with
          | Some chunks => Some (chunk :: chunks)
          | None => None
          end
      end
  end.

(** ** The program *)

Section Program.

Variable cfg : Config.
Variable w : World.

(** Line 25: [SHOW_PREVIEW and bool(os.environ.get("DISPLAY"))]. *)
Definition SHOW_PREVIEW : bool :=
  SHOW_PREVIEW_CONFIG cfg
  && match env_DISPLAY w with Some (_ :: _) => true | _ => false end.

(** [str(e)] *)
Definition exn_text (e : exn) : str :=
  match e with
  | RuntimeError msg => msg
  | FileNotFoundError =>
      py"[Errno 2] No such file or directory: 'rpicam-still'"
  | CalledProcessError cmd rc _ => called_process_text w cmd rc
  | UnicodeEncodeError s => encode_error_text w s
  | LibraryError text => text
  | KeyboardInterrupt => []
  | SystemExit code =>
      match code with
      | Zneg p => py"-" ++ str_of_N (Npos p)
      | _ => str_of_N (Z.to_N code)
      end
  end.

Definition checkpoint (msg : str) : M unit :=
  print (py"[OK] " ++ msg).

Definition glob (pattern : str) : M (list str) :=
  call (EGlob pattern) (fun t => Ret (glob_result w t pattern)).

Definition find_serial_port : M (option str) :=
  a <- glob py"/dev/ttyACM*" ;;
  b <- glob py"/dev/ttyUSB*" ;;
  let cands := sorted (a ++ b) in
  ret (match cands with c :: _ => Some c | [] => None end).

(** [chunk.encode("utf-8")] *)
Definition encode (s : str) : M (list N) :=
  match encode_utf8 s with
  | Some b => ret b
  | None => raise (UnicodeEncodeError s)
  end.

(** Lines 60-65: the [while payload:] loop. *)
Fixpoint write_loop (fuel : nat) (payload : str) : M unit :=
  match payload with
  | [] => ret tt
  | _ :: _ =>
      match fuel with
      | O => out_of_fuel
      | S fuel' =>
          let chunk := slice_to (MAX_CHARS_PER_CHUNK cfg) payload in
          let payload := slice_from (MAX_CHARS_PER_CHUNK cfg) payload in
          data <- encode chunk ;;
          call (ESerialWrite (data ++ [10]))
               (fun t => may_raise (serial_write w t (data ++ [10]))) ;;
          call ESerialFlush (fun t => may_raise (serial_flush w t)) ;;
          sleep 150 ;;
          write_loop fuel' payload
      end
  end.

(** [with serial.Serial(port, SERIAL_BAUD, timeout=2) as ser: body]: the
    port is closed on every way out of the body. *)
Definition with_serial (port : str) (body : M unit) : M unit :=
  call (ESerialOpen port (SERIAL_BAUD cfg) 2)
       (fun t => may_raise (serial_open w t port)) ;;
  try_finally body (emit ESerialClose).

Definition send_to_esp32 (fuel : nat) (text : option str) (port : option str)
  : M unit :=
  let text := strip (match text with Some s => s | None => [] end) in
  if is_empty text then print py"No text detected to send."
  else
    port <- match port with
            | None => find_serial_port
            | Some p => ret (Some p)
            end ;;
    match port with
    | None | Some [] =>
        print py"No ESP32 serial port found (e.g., /dev/ttyACM0). Skipping send."
    | Some port =>
        print (py"Connecting to ESP32 on " ++ port ++ py" @ "
               ++ str_of_N (SERIAL_BAUD cfg) ++ ellipsis) ;;
        try_except
          (with_serial port
             (sleep 2000 ;;
              let payload := collapse_ws text in
              write_loop fuel payload) ;;
           print py"Sent to ESP32.")
          (fun e => print (py"Serial error: " ++ exn_text e))
    end.

(** Lines 87-100: the preview loop; one unit of fuel per iteration. *)
Fixpoint preview_loop (fuel : nat) : M (option raster) :=
  match fuel with
  | O => out_of_fuel
  | S fuel' =>
      img <- call EPicamCapture (picam_capture w) ;;
      call (EImshow py"Camera (press c to capture)")
           (fun t => may_raise (imshow_result w t)) ;;
      key <- call (EWaitKey 1) (fun t => Ret (Z.land (wait_key w t) 255)) ;;
      if (key =? 99)%Z then ret (Some img)
      else if (key =? 113)%Z
           then emit EDestroyAllWindows ;; raise (SystemExit 0)
      else
        dt <- call EClock (fun t => Ret (elapsed_ms w t)) ;;
        if (dt >=? 1000 * CAPTURE_TIMEOUT_SEC cfg)%Z
        then print py"(Auto-captured due to timeout)" ;; ret (Some img)
        else preview_loop fuel'
  end.

Definition capture_with_picamera2 (fuel : nat) : M raster :=
  if negb (PICAMERA2_OK w) then raise (RuntimeError py"Picamera2 not available.")
  else
    call (EPicamStart (RESOLUTION cfg)) (fun t => may_raise (picam_start w t)) ;;
    sleep 500 ;;
    print (py"Press 'c' to capture, 'q' to quit. (Auto-captures in "
           ++ str_of_N (Z.to_N (CAPTURE_TIMEOUT_SEC cfg)) ++ py" sec)") ;;
    frame <- try_finally
               (if SHOW_PREVIEW
                then frame <- preview_loop fuel ;;
                     emit EDestroyAllWindows ;;
                     ret frame
                else img <- call EPicamCapture (picam_capture w) ;;
                     ret (Some img))
               (call EPicamStop (fun t => may_raise (picam_stop w t))) ;;
    match frame with
    | None => raise (RuntimeError py"Failed to capture frame with Picamera2.")
    | Some frame => ret frame
    end.

(** The command line of the fallback backend (line 116). *)
Definition rpicam_cmd : list str :=
  [py"rpicam-still"; py"--nopreview"; py"-t"; py"1000"; py"-o";
   py"capture_rpicam.jpg";
   py"--width"; str_of_N (fst (RESOLUTION cfg));
   py"--height"; str_of_N (snd (RESOLUTION cfg))].

(** [subprocess.run(cmd, check=True, ...)] *)
Definition subprocess_run (cmd : list str) : M unit :=
  call (ERun cmd)
       (fun t =>
          match proc_run w t cmd with
          | ProcNotFound => Raise FileNotFoundError
          | ProcExit status stderr =>
              if (status =? 0)%Z then Ret tt
              else Raise (CalledProcessError cmd status stderr)
          | ProcError e => Raise e
          end).

Definition capture_with_rpicam : M raster :=
  let tmp_path := py"capture_rpicam.jpg" in
  (fun t =>
     match subprocess_run rpicam_cmd t with
     | (t', Raise FileNotFoundError) =>
         (t', Raise (RuntimeError
            py"rpicam-still not found. Install rpicam-apps, or use Picamera2."))
     | (t', Raise (CalledProcessError cmd rc stderr as e)) =>
         (t', Raise (RuntimeError
            (py"rpicam-still failed: "
             ++ (if is_empty stderr then exn_text e else stderr))))
     | r => r
     end) ;;
  img <- call (EImread tmp_path) (fun t => Ret (imread_result w t tmp_path)) ;;
  match img with
  | None => raise (RuntimeError py"Failed to load image captured by rpicam-still.")
  | Some img => ret img
  end.

Definition capture_frame (fuel : nat) : M raster :=
  if PICAMERA2_OK w
  then fun t =>
         match capture_with_picamera2 fuel t with
         | (t', Raise e) =>
             if is_Exception e
             then (print (py"Picamera2 capture failed (" ++ exn_text e
                          ++ py"); falling back to rpicam-still" ++ ellipsis) ;;
                   capture_with_rpicam) t'
             else (t', Raise e)
         | r => r
         end
  else capture_with_rpicam.

(** [cv2.error] raised by the OpenCV function [func]. *)
Definition cv2_error (func : str) : exn := LibraryError (cv2_error_text w func).

(** Lines 139-145.  The three OpenCV calls keep the grid of the image:
    [cvtColor] and [threshold] work pixel by pixel, [bilateralFilter]
    computes each output pixel from the neighbourhood of its position.
    [cvtColor] refuses an empty image ([!_src.empty()]); a frame has three
    channels of 8 bits (the default of [cv2.imread], the still
    configuration of Picamera2), for which the other two calls do not
    raise. *)
Definition cvtColor_BGR2GRAY (img : raster) : outcome gray_image :=
  if no_pixels img then Raise (cv2_error py"cvtColor")
  else Ret (map (map (bgr2gray_px w)) img).

Definition bilateralFilter (src : gray_image) (d sigmaColor sigmaSpace : Z)
  : gray_image :=
  mapi (fun i row => mapi (fun j _ => bilateral_px w d sigmaColor sigmaSpace src i j) row)
       src.

Definition threshold (src : gray_image) (thresh maxval type : Z)
  : Z * gray_image :=
  let level := if Z.testbit type 3 then otsu_level w src else thresh in
  (level, map (map (threshold_px (Z.land type 7) level maxval)) src).

Definition preprocess_for_ocr (img_bgr : raster) : outcome gray_image :=
  match cvtColor_BGR2GRAY img_bgr with
  | Ret gray =>
      let gray := bilateralFilter gray 9 75 75 in
      let '(_, thresh) := threshold gray 0 255 (THRESH_BINARY + THRESH_OTSU) in
      Ret thresh
  | Raise e => Raise e
  | NoFuel => NoFuel
  end.

(** [cv2.imwrite(path, img)]: refuses an empty image ([!_img.empty()]);
    a file that cannot be written is reported by the returned flag, which
    the source does not look at. *)
Definition imwrite_color (path : str) (img : raster) : M unit :=
  call (EImwriteColor path img)
       (fun _ => if no_pixels img then Raise (cv2_error py"imwrite") else Ret tt).

Definition imwrite_gray (path : str) (img : gray_image) : M unit :=
  call (EImwriteGray path img)
       (fun _ => if no_pixels img then Raise (cv2_error py"imwrite") else Ret tt).

(** Lines 147-154.  [Image.fromarray] wraps the array. *)
Definition ocr_image (np_img : gray_image) : M str :=
  let pil_img := np_img in
  try_except
    (call (EOcr pil_img (LANG cfg) (TESSERACT_CONFIG cfg))
          (fun t => ocr_engine w t pil_img))
    (fun e => print (py"OCR error: " ++ exn_text e) ;; ret []).

Definition main (fuel : nat) : M unit :=
  checkpoint (py"Starting capture" ++ ellipsis) ;;
  frame <- capture_frame fuel ;;
  imwrite_color py"capture_raw.jpg" frame ;;
  checkpoint py"Saved capture_raw.jpg" ;;
  proc <- lift (preprocess_for_ocr frame) ;;
  imwrite_gray py"capture_proc.jpg" proc ;;
  checkpoint py"Saved capture_proc.jpg" ;;
  text <- ocr_image proc ;;
  checkpoint py"OCR complete" ;;
  print (10 :: py"===== OCR RESULT =====") ;;
  print (if is_empty (strip text) then py"(no text detected)" else text) ;;
  print (py"======================" ++ [10]) ;;
  line <- call (EInput py"Send to ESP32? [y/N]: ") (stdin_line w) ;;
  let choice := lower (strip line) in
  if str_eqb choice py"y"
  then checkpoint (py"Sending to ESP32" ++ ellipsis) ;;
       send_to_esp32 fuel (Some text) None ;;
       checkpoint py"Send complete"
  else print py"Skipped sending.".

End Program.

(** ** Vocabulary of the properties *)

(** A character sequence without whitespace. *)
Definition spaceless (s : str) : Prop := Forall (fun c => isspace c = false) s.

(** What [split] produces: non-empty and free of whitespace. *)
Definition word (s : str) : Prop := s <> [] /\ spaceless s.

(** First character, if any, is not whitespace. *)
Definition clean_head (s : str) : Prop :=
  match s with [] => True | c :: _ => isspace c = false end.

(** [starts_with p s]: [s] is not empty and [p] holds of its first
    character; [ends_with] is the same for the last character. *)
Definition starts_with (p : char -> bool) (s : str) : bool :=
  match s with c :: _ => p c | [] => false end.

Definition ends_with (p : char -> bool) (s : str) : bool :=
  starts_with p (rev s).

(** Lexical order of Python strings, as a relation. *)
Definition str_le (a b : str) : Prop := leb a b = true.

(** A world for examples: the camera SDK is present iff [cam_ok], the two
    glob patterns match [acm] and [usb], [rpicam-still] ends as [run], the
    captured file reads as [rd], the OCR engine answers [ocr], the operator
    types [line]; the serial port works. *)
Definition sample_world (cam_ok : bool) (cam : outcome raster)
    (acm usb : list str) (run : proc_result) (rd : option raster)
    (ocr : outcome str) (line : str) : World := {|
  PICAMERA2_OK := cam_ok;
  env_DISPLAY := None;
  glob_result := fun _ pat => if str_eqb pat py"/dev/ttyACM*" then acm else usb;
  serial_open := fun _ _ => None;
  serial_write := fun _ _ => None;
  serial_flush := fun _ => None;
  picam_start := fun _ => None;
  picam_capture := fun _ => cam;
  picam_stop := fun _ => None;
  imshow_result := fun _ => None;
  wait_key := fun _ => (-1)%Z;
  elapsed_ms := fun _ => 0%Z;
  proc_run := fun _ _ => run;
  imread_result := fun _ _ => rd;
  bgr2gray_px := fun '(b, g, r) => ((b + g + r) / 3)%Z;
  bilateral_px := fun _ _ _ img i j => nth j (nth i img []) 0%Z;
  otsu_level := fun _ => 127%Z;
  ocr_engine := fun _ _ => ocr;
  stdin_line := fun _ => Ret line;
  called_process_text := fun _ _ => py"Command returned non-zero exit status.";
  encode_error_text := fun _ => py"'utf-8' codec can't encode character";
  cv2_error_text := fun func => py"(-215:Assertion failed) in function " ++ func
|}.

(** A 2 x 2 colour frame. *)
Definition sample_frame : raster :=
  [[(10, 20, 30); (200, 210, 220)]; (40, 50, 60) :: [(250, 250, 250)]]%Z.

(** The serial port accepts every write and flush. *)
Definition serial_ok (w : World) : Prop :=
  (forall t d, serial_write w t d = None) /\ (forall t, serial_flush w t = None).

(** What one iteration of the chunk loop adds to the trace when it sends
    the bytes [data]. *)
Definition sent (data : list N) : list event :=
  [ESerialWrite (data ++ [10]); ESerialFlush; ESleep 150].

(** The configuration with another maximal chunk size. *)
Definition config_with_chunk (k : nat) : Config := {|
  RESOLUTION := RESOLUTION config;
  SERIAL_BAUD := SERIAL_BAUD config;
  MAX_CHARS_PER_CHUNK := k;
  CAPTURE_TIMEOUT_SEC := CAPTURE_TIMEOUT_SEC config;
  LANG := LANG config;
  TESSERACT_CONFIG := TESSERACT_CONFIG config;
  SHOW_PREVIEW_CONFIG := SHOW_PREVIEW_CONFIG config
|}.

(** The three ways in which the fallback backend fails when it is run
    after the trace [t]: the tool is not found, it exits with a non-zero
    status, or the file it wrote cannot be read.  [fallback_failure cfg w t
    t' msg]: the failure leaves the trace [t'] and is reported as [msg]. *)
Inductive fallback_failure (cfg : Config) (w : World) (t : trace)
  : trace -> str -> Prop :=
| tool_not_found :
    proc_run w t (rpicam_cmd cfg) = ProcNotFound ->
    fallback_failure cfg w t (t ++ [ERun (rpicam_cmd cfg)])
      py"rpicam-still not found. Install rpicam-apps, or use Picamera2."
| nonzero_exit status stderr :
    proc_run w t (rpicam_cmd cfg) = ProcExit status stderr ->
    status <> 0%Z ->
    fallback_failure cfg w t (t ++ [ERun (rpicam_cmd cfg)])
      (py"rpicam-still failed: "
       ++ (if is_empty stderr
           then called_process_text w (rpicam_cmd cfg) status
           else stderr))
| unreadable_output stderr :
    proc_run w t (rpicam_cmd cfg) = ProcExit 0 stderr ->
    imread_result w (t ++ [ERun (rpicam_cmd cfg)]) py"capture_rpicam.jpg" = None ->
    fallback_failure cfg w t
      (t ++ [ERun (rpicam_cmd cfg); EImread py"capture_rpicam.jpg"])
      py"Failed to load image captured by rpicam-still.".

(** Events of the chunk loop: a write, a flush, the pause between chunks. *)
Definition port_io (e : event) : bool :=
  match e with
  | ESerialWrite _ | ESerialFlush | ESleep _ => true
  | _ => false
  end.

Definition is_print (e : event) : bool :=
  match e with EPrint _ => true | _ => false end.

(** Events that touch the serial device or scan for it. *)
Definition serial_event (e : event) : bool :=
  match e with
  | EGlob _ | ESerialOpen _ _ _ | ESerialWrite _ | ESerialFlush | ESerialClose => true
  | _ => false
  end.

(** [w] with another serial port. *)
Definition set_serial (w : World)
    (open : trace -> str -> option exn)
    (write : trace -> list N -> option exn)
    (flush : trace -> option exn) : World := {|
  PICAMERA2_OK := PICAMERA2_OK w;
  env_DISPLAY := env_DISPLAY w;
  glob_result := glob_result w;
  serial_open := open;
  serial_write := write;
  serial_flush := flush;
  picam_start := picam_start w;
  picam_capture := picam_capture w;
  picam_stop := picam_stop w;
  imshow_result := imshow_result w;
  wait_key := wait_key w;
  elapsed_ms := elapsed_ms w;
  proc_run := proc_run w;
  imread_result := imread_result w;
  bgr2gray_px := bgr2gray_px w;
  bilateral_px := bilateral_px w;
  otsu_level := otsu_level w;
  ocr_engine := ocr_engine w;
  stdin_line := stdin_line w;
  called_process_text := called_process_text w;
  encode_error_text := encode_error_text w;
  cv2_error_text := cv2_error_text w
|}.

(** [w] with a display, a keyboard and a clock for the preview window. *)
Definition set_preview (w : World) (display : option str)
    (key : trace -> Z) (elapsed : trace -> Z) : World := {|
  PICAMERA2_OK := PICAMERA2_OK w;
  env_DISPLAY := display;
  glob_result := glob_result w;
  serial_open := serial_open w;
  serial_write := serial_write w;
  serial_flush := serial_flush w;
  picam_start := picam_start w;
  picam_capture := picam_capture w;
  picam_stop := picam_stop w;
  imshow_result := imshow_result w;
  wait_key := key;
  elapsed_ms := elapsed;
  proc_run := proc_run w;
  imread_result := imread_result w;
  bgr2gray_px := bgr2gray_px w;
  bilateral_px := bilateral_px w;
  otsu_level := otsu_level w;
  ocr_engine := ocr_engine w;
  stdin_line := stdin_line w;
  called_process_text := called_process_text w;
  encode_error_text := encode_error_text w;
  cv2_error_text := cv2_error_text w
|}.

(** The message that announces the connection (line 55). *)
Definition connecting (cfg : Config) (port : str) : event :=
  EPrint (py"Connecting to ESP32 on " ++ port ++ py" @ "
          ++ str_of_N (SERIAL_BAUD cfg) ++ ellipsis).

(** No two whitespace characters in a row. *)
Fixpoint single_spaced (s : str) : bool :=
  match s with
  | a :: (b :: _) as s' => negb (isspace a && isspace b) && single_spaced s'
  | _ => true
  end.

(** A write of the chunk loop is one line: bytes without a newline byte,
    then one newline byte. *)
Definition one_line (e : event) : Prop :=
  match e with
  | ESerialWrite data => exists d, data = d ++ [10] /\ ~ In 10 d
  | _ => True
  end.

(** Events of the preview window and of frame capture. *)
Definition preview_event (e : event) : bool :=
  match e with
  | EPicamCapture | EImshow _ | EWaitKey _ | EDestroyAllWindows | EClock
  | EPrint _ => true
  | _ => false
  end.

(** The first events of the primary backend: the camera is configured and
    started, warms up, and the operator is told the keys (lines 75-83). *)
Definition camera_started (cfg : Config) : list event :=
  [EPicamStart (RESOLUTION cfg); ESleep 500;
   EPrint (py"Press 'c' to capture, 'q' to quit. (Auto-captures in "
           ++ str_of_N (Z.to_N (CAPTURE_TIMEOUT_SEC cfg)) ++ py" sec)")].

(** What [main] records between the capture and the recognition: both
    images are saved (lines 159-164). *)
Definition saved_events (frame : raster) (proc : gray_image) : list event :=
  [EImwriteColor py"capture_raw.jpg" frame;
   EPrint py"[OK] Saved capture_raw.jpg";
   EImwriteGray py"capture_proc.jpg" proc;
   EPrint py"[OK] Saved capture_proc.jpg"].

(** What [main] prints for the recognized text (lines 167-170). *)
Definition result_events (text : str) : list event :=
  [EPrint py"[OK] OCR complete";
   EPrint (10 :: py"===== OCR RESULT =====");
   EPrint (if is_empty (strip text) then py"(no text detected)" else text);
   EPrint (py"======================" ++ [10])].

Definition prompt : event := EInput py"Send to ESP32? [y/N]: ".

(** The libraries behind the OCR engine and the serial port only raise
    instances of [Exception], and the OCR engine answers. *)
Definition no_interrupts (w : World) : Prop :=
  (forall t img, ocr_engine w t img <> NoFuel)
  /\ (forall t img e, ocr_engine w t img = Raise e -> is_Exception e = true)
  /\ (forall t p e, serial_open w t p = Some e -> is_Exception e = true)
  /\ (forall t d e, serial_write w t d = Some e -> is_Exception e = true)
  /\ (forall t e, serial_flush w t = Some e -> is_Exception e = true).

(** A write of at most [k] bytes. *)
Definition line_within (k : nat) (e : event) : Prop :=
  match e with
  | ESerialWrite data => (length data <= k)%nat
  | _ => True
  end.

(** A string that a UTF-8 console can print. *)
Definition printable (s : str) : Prop := encode_utf8 s <> None.

(** What the run prints of the outside world can be printed: the names
    of the scanned devices, the recognized text and the texts of the
    errors of the OCR engine, of the serial port and of the encoder. *)
Definition console_safe (w : World) : Prop :=
  (forall t pat, Forall printable (glob_result w t pat))
  /\ (forall t img s, ocr_engine w t img = Ret s -> printable s)
  /\ (forall t img e, ocr_engine w t img = Raise e -> printable (exn_text w e))
  /\ (forall t p e, serial_open w t p = Some e -> printable (exn_text w e))
  /\ (forall t d e, serial_write w t d = Some e -> printable (exn_text w e))
  /\ (forall t e, serial_flush w t = Some e -> printable (exn_text w e))
  /\ (forall s, printable (encode_error_text w s)).

(** A run of whitespace (possibly empty). *)
Definition blank (s : str) : Prop := Forall (fun c => isspace c = true) s.

(** The text made of the given words, each one preceded by its gap. *)
Fixpoint spaced (pairs : list (str * str)) : str :=
  match pairs with
  | [] => []
  | (gap, u) :: rest => gap ++ u ++ spaced rest
  end.

(** * Properties *)

(** ** Whitespace normalization *)

Section Normalization.

Lemma spaceless_rev s : spaceless s -> spaceless (rev s).
Proof.
  unfold spaceless. intros H. apply Forall_forall. intros c Hc.
  apply in_rev in Hc. rewrite Forall_forall in H. auto.
Qed.

Lemma split_from_words s :
  forall cur, spaceless cur -> Forall word (split_from cur s).
Proof.
  induction s as [|c s IH]; intros cur Hcur; simpl.
  - destruct cur as [|x cur]; constructor; [|constructor].
    split.
    + intro E. apply (f_equal (@length _)) in E.
      rewrite length_rev in E. discriminate.
    + now apply spaceless_rev.
  - destruct (isspace c) eqn:Ec.
    + destruct cur as [|x cur].
      * apply IH. constructor.
      * constructor; [|apply IH; constructor].
        split.
        -- intro E. apply (f_equal (@length _)) in E.
           rewrite length_rev in E. discriminate.
        -- now apply spaceless_rev.
    + apply IH. constructor; assumption.
Qed.

Lemma split_words s : Forall word (split s).
Proof. apply split_from_words. constructor. Qed.

Lemma split_from_spaceless u :
  spaceless u ->
  forall cur rest, split_from cur (u ++ rest) = split_from (rev u ++ cur) rest.
Proof.
  induction 1 as [|c u Hc _ IH]; intros cur rest; simpl.
  - reflexivity.
  - rewrite Hc, IH, <- app_assoc. reflexivity.
Qed.

Lemma split_from_space cur s :
  split_from cur (32 :: s) =
  match cur with
  | [] => split_from [] s
  | _ => rev cur :: split_from [] s
  end.
Proof. reflexivity. Qed.

Lemma split_join ws : Forall word ws -> split (join py" " ws) = ws.
Proof.
  unfold split.
  induction 1 as [|u ws [Hne Hu] Hws IH]; [reflexivity|].
  destruct ws as [|v ws].
  - simpl. rewrite <- (app_nil_r u) at 1.
    rewrite split_from_spaceless by assumption.
    rewrite app_nil_r. simpl.
    destruct (rev u) eqn:E.
    + apply (f_equal (@length _)) in E. rewrite length_rev in E.
      destruct u; [congruence|discriminate].
    + rewrite <- E, rev_involutive. reflexivity.
  - change (join py" " (u :: v :: ws))
      with (u ++ 32 :: join py" " (v :: ws)).
    rewrite split_from_spaceless by assumption.
    rewrite app_nil_r, split_from_space.
    destruct (rev u) eqn:E.
    + apply (f_equal (@length _)) in E. rewrite length_rev in E.
      destruct u; [congruence|discriminate].
    + rewrite <- E, rev_involutive, IH. reflexivity.
Qed.

Lemma lstrip_clean s : clean_head s -> lstrip s = s.
Proof. destruct s as [|c s]; simpl; [reflexivity|]. now intros ->. Qed.

Lemma strip_clean s : clean_head s -> clean_head (rev s) -> strip s = s.
Proof.
  intros H1 H2. unfold strip, rstrip.
  rewrite (lstrip_clean _ H1), (lstrip_clean _ H2). apply rev_involutive.
Qed.

Lemma clean_head_app a b : a <> [] -> clean_head a -> clean_head (a ++ b).
Proof. destruct a; [congruence|auto]. Qed.

Lemma word_clean_head u : word u -> clean_head u.
Proof. intros [_ H]. destruct H; simpl; auto. Qed.

Lemma word_clean_last u : word u -> clean_head (rev u).
Proof.
  intros [_ H]. apply spaceless_rev in H. destruct H; simpl; auto.
Qed.

Lemma join_clean_head ws : Forall word ws -> clean_head (join py" " ws).
Proof.
  destruct 1 as [|u ws Hu Hws]; simpl; [exact I|].
  destruct ws.
  - now apply word_clean_head.
  - apply clean_head_app; [apply Hu | now apply word_clean_head].
Qed.

Lemma join_nonempty u ws : u <> [] -> join py" " (u :: ws) <> [].
Proof.
  destruct u as [|c u]; [congruence|]. intros _.
  destruct ws; simpl; discriminate.
Qed.

Lemma join_clean_last ws : Forall word ws -> clean_head (rev (join py" " ws)).
Proof.
  induction 1 as [|u ws Hu Hws IH]; [exact I|].
  destruct ws as [|v ws].
  - now apply word_clean_last.
  - change (join py" " (u :: v :: ws))
      with (u ++ py" " ++ join py" " (v :: ws)).
    rewrite !rev_app_distr, <- app_assoc.
    apply clean_head_app; [|exact IH].
    inversion Hws as [|? ? [Hv _] _]; subst.
    intro E. apply (f_equal (@rev _)) in E. rewrite rev_involutive in E.
    revert E. now apply join_nonempty.
Qed.

End Normalization.

(** ** C10: the normalized payload *)

Lemma clean_head_starts s :
  clean_head s ->
  starts_with isspace s = false /\ starts_with (N.eqb 32) s = false.
Proof.
  destruct s as [|c s]; unfold starts_with; [auto|].
  intros Hc. split; [exact Hc|].
  destruct (N.eqb_spec 32 c) as [<-|]; [discriminate|reflexivity].
Qed.

(** C10: the normalization also removes leading and trailing whitespace:
    for every input text the normalized payload neither begins nor ends
    with a space (U+0020) nor with any other whitespace character, and
    normalizing twice is the same as normalizing once. *)
Theorem normalize_trimmed_idempotent :
  forall text : option str,
    starts_with (N.eqb 32) (normalize text) = false
    /\ ends_with (N.eqb 32) (normalize text) = false
    /\ starts_with isspace (normalize text) = false
    /\ ends_with isspace (normalize text) = false
    /\ normalize (Some (normalize text)) = normalize text.
Proof.
  intros text. unfold normalize, collapse_ws, ends_with.
  set (s := strip match text with Some s => s | None => [] end).
  pose proof (split_words s) as Hw.
  pose proof (join_clean_head Hw) as Hh.
  pose proof (join_clean_last Hw) as Hl.
  destruct (clean_head_starts _ Hh) as [H1 H2].
  destruct (clean_head_starts _ Hl) as [H3 H4].
  repeat split; try assumption.
  rewrite (strip_clean _ Hh Hl), split_join by assumption. reflexivity.
Qed.

(** ** C8: device resolution *)

Section Sorting.

Lemma leb_refl a : leb a a = true.
Proof.
  induction a as [|x a IH]; simpl; [reflexivity|].
  rewrite N.ltb_irrefl. exact IH.
Qed.

Lemma leb_total a : forall b, leb a b = false -> leb b a = true.
Proof.
  induction a as [|x a IH]; intros [|y b]; simpl; try easy.
  destruct (N.ltb_spec x y), (N.ltb_spec y x); try easy; try lia.
  apply IH.
Qed.

Lemma leb_trans a : forall b c, leb a b = true -> leb b c = true -> leb a c = true.
Proof.
  induction a as [|x a IH]; intros [|y b] [|z c]; simpl; try easy.
  destruct (N.ltb_spec x y), (N.ltb_spec y z), (N.ltb_spec x z),
    (N.ltb_spec y x), (N.ltb_spec z y), (N.ltb_spec z x);
    try easy; try lia.
  apply IH.
Qed.

Lemma insert_perm x l : Permutation (x :: l) (insert x l).
Proof.
  induction l as [|y l IH]; simpl; [reflexivity|].
  destruct (leb x y); [reflexivity|].
  rewrite perm_swap. now constructor.
Qed.

Lemma sorted_perm l : Permutation l (sorted l).
Proof.
  induction l as [|x l IH]; simpl; [constructor|].
  rewrite <- insert_perm. now constructor.
Qed.

Lemma insert_sorted x l :
  StronglySorted str_le l -> StronglySorted str_le (insert x l).
Proof.
  induction 1 as [|y l Hs IH Hy]; simpl.
  - repeat constructor.
  - destruct (leb x y) eqn:E.
    + constructor; [now constructor|].
      constructor; [exact E|].
      rewrite Forall_forall in *. intros z Hz.
      eapply leb_trans; [exact E|]. now apply Hy.
    + constructor; [exact IH|].
      rewrite Forall_forall in *. intros z Hz.
      apply (Permutation_in _ (Permutation_sym (insert_perm x l))) in Hz.
      destruct Hz as [<-|Hz]; [now apply leb_total | now apply Hy].
Qed.

Lemma sorted_sorted l : StronglySorted str_le (sorted l).
Proof.
  induction l; simpl; [constructor | now apply insert_sorted].
Qed.

Lemma sorted_head_min l p :
  hd_error (sorted l) = Some p ->
  In p l /\ forall q, In q l -> str_le p q.
Proof.
  intros H. pose proof (sorted_sorted l) as Hs.
  pose proof (sorted_perm l) as Hp.
  destruct (sorted l) as [|p' l'] eqn:E; [discriminate|].
  injection H as ->. split.
  - apply (Permutation_in _ (Permutation_sym Hp)). now left.
  - intros q Hq. apply (Permutation_in _ Hp) in Hq.
    destruct Hq as [<-|Hq]; [apply leb_refl|].
    inversion Hs as [|? ? _ Hall]; subst.
    rewrite Forall_forall in Hall. now apply Hall.
Qed.

End Sorting.

(** C8: with no explicit port, device resolution scans the two patterns,
    sorts the combined list of matches lexically and picks its first
    element: for every non-empty set of matches the chosen port is the
    lexically smallest match across both patterns. *)
Theorem find_serial_port_smallest :
  forall (w : World) (t : trace),
    let acm := glob_result w t py"/dev/ttyACM*" in
    let usb := glob_result w (t ++ [EGlob py"/dev/ttyACM*"]) py"/dev/ttyUSB*" in
    acm ++ usb <> [] ->
    exists p,
      find_serial_port w t
      = (t ++ [EGlob py"/dev/ttyACM*"; EGlob py"/dev/ttyUSB*"], Ret (Some p))
      /\ Permutation (acm ++ usb) (sorted (acm ++ usb))
      /\ StronglySorted str_le (sorted (acm ++ usb))
      /\ hd_error (sorted (acm ++ usb)) = Some p
      /\ In p (acm ++ usb)
      /\ (forall q, In q (acm ++ usb) -> str_le p q).
Proof.
  intros w t acm usb Hne.
  destruct (sorted (acm ++ usb)) as [|p l] eqn:E.
  - pose proof (sorted_perm (acm ++ usb)) as Hp. rewrite E in Hp.
    apply Permutation_sym, Permutation_nil in Hp. contradiction.
  - exists p.
    assert (Hh : hd_error (sorted (acm ++ usb)) = Some p) by now rewrite E.
    destruct (sorted_head_min _ Hh) as [Hin Hmin].
    rewrite <- E at 1 2.
    repeat split; auto using sorted_perm, sorted_sorted.
    unfold find_serial_port, bind, glob, call, ret.
    fold acm. fold usb. rewrite E, <- app_assoc. reflexivity.
Qed.

Lemma find_serial_port_smallest_witness :
  exists p,
    find_serial_port
      (sample_world false NoFuel [py"/dev/ttyACM1"; py"/dev/ttyACM0"]
         [py"/dev/ttyUSB0"] ProcNotFound None NoFuel []) []
    = ([EGlob py"/dev/ttyACM*"; EGlob py"/dev/ttyUSB*"], Ret (Some p))
    /\ p = py"/dev/ttyACM0".
Proof.
  destruct (@find_serial_port_smallest
              (sample_world false NoFuel [py"/dev/ttyACM1"; py"/dev/ttyACM0"]
                 [py"/dev/ttyUSB0"] ProcNotFound None NoFuel []) [])
    as [p [H1 [_ [_ [H2 _]]]]].
  - vm_compute. discriminate.
  - exists p. split; [exact H1|].
    vm_compute in H2. injection H2 as <-. reflexivity.
Defined.

(** ** C3, C5: the transmit step returns early *)

Section EarlyReturn.

Lemma lstrip_blank s : Forall (fun c => isspace c = true) s -> lstrip s = [].
Proof. induction 1 as [|c s Hc _ IH]; simpl; [|rewrite Hc]; auto. Qed.

Lemma lstrip_empty_blank s : lstrip s = [] -> Forall (fun c => isspace c = true) s.
Proof.
  induction s as [|c s IH]; simpl; [constructor|].
  destruct (isspace c) eqn:E; [|discriminate]. auto.
Qed.

Lemma lstrip_clean_head s : clean_head (lstrip s).
Proof.
  induction s as [|c s IH]; simpl; [exact I|].
  destruct (isspace c) eqn:E; [exact IH | exact E].
Qed.

Lemma lstrip_snoc a c : isspace c = false -> lstrip (a ++ [c]) = lstrip a ++ [c].
Proof.
  intros Hc. induction a as [|x a IH]; simpl; [now rewrite Hc|].
  destruct (isspace x); [exact IH | reflexivity].
Qed.

(** [strip] answers the empty string, or a string whose first character
    is that of [lstrip] and is not whitespace. *)
Lemma strip_cases s :
  (lstrip s = [] /\ strip s = [])
  \/ exists c r, isspace c = false /\ strip s = c :: r.
Proof.
  unfold strip, rstrip. pose proof (lstrip_clean_head s) as H.
  destruct (lstrip s) as [|c r]; [now left|right].
  simpl in H. exists c, (rev (lstrip (rev r))). split; [exact H|].
  simpl rev at 2. rewrite lstrip_snoc, rev_app_distr by exact H. reflexivity.
Qed.

Lemma strip_empty_iff s : strip s = [] <-> Forall (fun c => isspace c = true) s.
Proof.
  split.
  - intros H. destruct (strip_cases s) as [[Hl _]|[c [r [_ E]]]].
    + now apply lstrip_empty_blank.
    + congruence.
  - intros H. unfold strip. rewrite (lstrip_blank H). reflexivity.
Qed.

Lemma split_from_nonempty s : forall cur, cur <> [] -> split_from cur s <> [].
Proof.
  induction s as [|c s IH]; intros cur Hc; simpl.
  - destruct cur; [congruence|discriminate].
  - destruct (isspace c).
    + destruct cur; [congruence|discriminate].
    + apply IH. discriminate.
Qed.

Lemma collapse_ws_empty_iff s : strip s = s -> collapse_ws s = [] <-> s = [].
Proof.
  intros Hs. split; [|now intros ->].
  intros H. destruct (strip_cases s) as [[_ E]|[c [r [Hc E]]]]; [congruence|].
  exfalso. rewrite Hs in E. subst s. unfold collapse_ws, split in H.
  simpl in H. rewrite Hc in H.
  pose proof (split_from_words r (cur := [c])) as Hw.
  destruct (split_from [c] r) as [|u ws] eqn:Eu.
  - revert Eu. apply split_from_nonempty. discriminate.
  - assert (Hu : word u).
    { assert (Hall : Forall word (u :: ws))
        by (apply Hw; constructor; [exact Hc | constructor]).
      now inversion Hall. }
    revert H. apply join_nonempty, Hu.
Qed.

Lemma strip_idem s : strip (strip s) = strip s.
Proof.
  destruct (strip_cases s) as [[_ E]|[c [r [Hc E]]]]; [now rewrite E|].
  apply strip_clean.
  - rewrite E. exact Hc.
  - unfold strip, rstrip. rewrite rev_involutive. apply lstrip_clean_head.
Qed.

(** The normalized text is empty exactly when the stripped text is. *)
Lemma normalize_empty_iff text :
  normalize text = [] <-> strip (match text with Some s => s | None => [] end) = [].
Proof. unfold normalize. apply collapse_ws_empty_iff, strip_idem. Qed.

End EarlyReturn.

(** C3: for every text that is empty or whitespace-only (empty after
    normalization), the transmit step reports that there is nothing to
    send and returns; it neither scans for nor opens a serial device: the
    report is the only event. *)
Theorem send_to_esp32_nothing_to_send :
  forall (cfg : Config) (w : World) (fuel : nat) (text : option str) (t : trace),
    normalize text = [] ->
    send_to_esp32 cfg w fuel text None t
    = (t ++ [EPrint py"No text detected to send."], Ret tt).
Proof.
  intros cfg w fuel text t H. apply normalize_empty_iff in H.
  unfold send_to_esp32. rewrite H. reflexivity.
Qed.

Lemma send_to_esp32_nothing_to_send_witness :
  normalize (Some (py"  " ++ [9; 10] ++ py" ")) = []
  /\ send_to_esp32 config
       (sample_world false NoFuel [py"/dev/ttyACM0"] [] ProcNotFound None NoFuel [])
       0 (Some (py"  " ++ [9; 10] ++ py" ")) None []
     = ([EPrint py"No text detected to send."], Ret tt).
Proof.
  split; [reflexivity|].
  apply (@send_to_esp32_nothing_to_send config
           (sample_world false NoFuel [py"/dev/ttyACM0"] [] ProcNotFound None NoFuel [])
           0 (Some (py"  " ++ [9; 10] ++ py" ")) []).
  reflexivity.
Defined.

(** C5: when no explicit port is given, the text is not empty after
    normalization, and both glob patterns match nothing, the transmit step
    reports that no port was found and returns normally; no device is
    opened: the two scans and the report are the only events. *)
Theorem send_to_esp32_no_port :
  forall (cfg : Config) (w : World) (fuel : nat) (text : option str) (t : trace),
    normalize text <> [] ->
    glob_result w t py"/dev/ttyACM*" = [] ->
    glob_result w (t ++ [EGlob py"/dev/ttyACM*"]) py"/dev/ttyUSB*" = [] ->
    send_to_esp32 cfg w fuel text None t
    = (t ++ [EGlob py"/dev/ttyACM*"; EGlob py"/dev/ttyUSB*";
             EPrint py"No ESP32 serial port found (e.g., /dev/ttyACM0). Skipping send."],
       Ret tt).
Proof.
  intros cfg w fuel text t Hne Ha Hu.
  rewrite normalize_empty_iff in Hne.
  unfold send_to_esp32.
  destruct (strip _) as [|c r] eqn:E; [congruence|].
  unfold is_empty, find_serial_port, glob, print, emit, bind, call, ret.
  rewrite Ha, Hu. cbn [app sorted]. rewrite <- !app_assoc. reflexivity.
Qed.

Lemma send_to_esp32_no_port_witness :
  send_to_esp32 config
    (sample_world false NoFuel [] [] ProcNotFound None NoFuel [])
    0 (Some py" hello world ") None []
  = ([EGlob py"/dev/ttyACM*"; EGlob py"/dev/ttyUSB*";
      EPrint py"No ESP32 serial port found (e.g., /dev/ttyACM0). Skipping send."],
     Ret tt).
Proof.
  apply (@send_to_esp32_no_port config
           (sample_world false NoFuel [] [] ProcNotFound None NoFuel [])
           0 (Some py" hello world ") []).
  - vm_compute. discriminate.
  - reflexivity.
  - reflexivity.
Defined.

(** ** C4, C9: chunking *)

Section Chunking.

Variable cfg : Config.
Variable w : World.
Hypothesis max_pos : (0 < MAX_CHARS_PER_CHUNK cfg)%nat.
Hypothesis port_ok : serial_ok w.

Local Abbreviation n := (MAX_CHARS_PER_CHUNK cfg).

Lemma encode_utf8_app a b :
  encode_utf8 (a ++ b)
  = match encode_utf8 a, encode_utf8 b with
    | Some x, Some y => Some (x ++ y)
    | _, _ => None
    end.
Proof.
  induction a as [|c a IH]; simpl.
  - now destruct (encode_utf8 b).
  - rewrite IH.
    destruct (encode_char c), (encode_utf8 a), (encode_utf8 b);
      try reflexivity.
    now rewrite app_assoc.
Qed.

Lemma write_loop_step fuel c p t d :
  encode_utf8 (firstn n (c :: p)) = Some d ->
  write_loop cfg w (S fuel) (c :: p) t
  = write_loop cfg w fuel (skipn n (c :: p)) (t ++ sent d).
Proof.
  intros Hd. destruct port_ok as [Hw Hf].
  cbn [write_loop]. unfold slice_to, slice_from, encode.
  rewrite Hd. unfold sleep, emit, bind, call, ret, may_raise.
  rewrite Hw, Hf. unfold sent. rewrite <- !app_assoc. reflexivity.
Qed.

(** The slicing alone: it ends once the fuel covers the payload, the chunks
    concatenate to the payload, all but the last have [n] characters. *)
Lemma chunk_loop_shape fuel :
  forall payload,
    (length payload <= fuel)%nat ->
    exists cs : list str,
      chunk_loop n fuel payload = Some cs
      /\ concat cs = payload
      /\ match payload with
         | [] => cs = []
         | _ :: _ =>
             exists init last,
               cs = init ++ [last]
               /\ Forall (fun c => length c = n) init
               /\ (0 < length last <= n)%nat
         end.
Proof.
  induction fuel as [|fuel IH]; intros payload Hlen.
  - destruct payload; [|simpl in Hlen; lia]. now exists [].
  - destruct payload as [|c p]; [now exists []|].
    assert (Hrest : (length (skipn n (c :: p)) <= fuel)%nat).
    { rewrite length_skipn. simpl length in *. lia. }
    destruct (IH _ Hrest) as [cs [Hrun [Hcat Hshape]]].
    exists (firstn n (c :: p) :: cs).
    cbn [chunk_loop]. unfold slice_to, slice_from. rewrite Hrun.
    split; [reflexivity|].
    split; [cbn [concat]; rewrite Hcat; apply firstn_skipn|].
    pose proof (length_firstn n (c :: p)) as Hfl.
    pose proof (length_skipn n (c :: p)) as Hsl.
    destruct (skipn n (c :: p)) as [|c' p'] eqn:Es.
    + subst cs. exists [], (firstn n (c :: p)).
      repeat split; [constructor| |]; rewrite Hfl; simpl length; lia.
    + destruct Hshape as [init [last [-> [Hinit Hlast]]]].
      exists (firstn n (c :: p) :: init), last.
      repeat split; try apply Hlast.
      constructor; [|exact Hinit].
      rewrite Hfl. simpl length in *. lia.
Qed.

(** The loop on a healthy port: it ends, and what it sends are the
    encodings of the chunks of [chunk_loop], one write per chunk. *)
Lemma write_loop_chunks fuel :
  forall payload cs bytes t,
    chunk_loop n fuel payload = Some cs ->
    encode_utf8 payload = Some bytes ->
    exists data : list (list N),
      write_loop cfg w fuel payload t = (t ++ flat_map sent data, Ret tt)
      /\ Forall2 (fun c d => encode_utf8 c = Some d) cs data
      /\ concat data = bytes.
Proof.
  induction fuel as [|fuel IH]; intros payload cs bytes t Hcs Henc.
  - destruct payload; [|discriminate].
    injection Hcs as <-. injection Henc as <-.
    exists []. simpl. rewrite app_nil_r. repeat split; constructor.
  - destruct payload as [|c p].
    + injection Hcs as <-. injection Henc as <-.
      exists []. simpl. rewrite app_nil_r. repeat split; constructor.
    + cbn [chunk_loop] in Hcs. unfold slice_to, slice_from in Hcs.
      destruct (chunk_loop n fuel (skipn n (c :: p))) as [cs'|] eqn:Ecs;
        [|discriminate].
      injection Hcs as <-.
      rewrite <- (firstn_skipn n (c :: p)), encode_utf8_app in Henc.
      destruct (encode_utf8 (firstn n (c :: p))) as [d|] eqn:Ed;
        [|discriminate].
      destruct (encode_utf8 (skipn n (c :: p))) as [ds|] eqn:Eds;
        [|discriminate].
      injection Henc as <-.
      destruct (IH _ _ _ (t ++ sent d) Ecs Eds) as [data [Hrun [Hall Hbytes]]].
      exists (d :: data).
      rewrite (@write_loop_step fuel c p t d Ed), Hrun.
      split; [cbn [flat_map]; now rewrite <- app_assoc|].
      split; [now constructor|].
      cbn [concat]. now rewrite Hbytes.
Qed.

End Chunking.

Lemma some_eq A (x y : A) : Some x = Some y -> y = x.
Proof. congruence. Qed.

Lemma write_loop_done cfg w fuel t : write_loop cfg w fuel [] t = (t, Ret tt).
Proof. destruct fuel; reflexivity. Qed.

(** C4: chunking cuts the normalized text into consecutive pieces of at
    most the maximal chunk size (the pieces, in order, concatenate to the
    text) and each piece is written followed by one newline byte, one
    write per piece; in particular, with maximal size 5 the text
    "abcdefgh" (which normalization leaves as it is) is cut into "abcde"
    and "fgh", sent in that order. *)
Theorem chunking_splits_and_frames :
  forall (cfg : Config) (w : World) (fuel : nat) (payload : str)
         (bytes : list N) (t : trace),
    (0 < MAX_CHARS_PER_CHUNK cfg)%nat ->
    serial_ok w ->
    (length payload <= fuel)%nat ->
    encode_utf8 payload = Some bytes ->
    (exists (cs : list str) (data : list (list N)),
       chunk_loop (MAX_CHARS_PER_CHUNK cfg) fuel payload = Some cs
       /\ concat cs = payload
       /\ Forall (fun c => (0 < length c <= MAX_CHARS_PER_CHUNK cfg)%nat) cs
       /\ Forall2 (fun c d => encode_utf8 c = Some d) cs data
       /\ write_loop cfg w fuel payload t
          = (t ++ flat_map
                    (fun d => [ESerialWrite (d ++ [10]); ESerialFlush; ESleep 150])
                    data,
             Ret tt))
    /\ normalize (Some py"abcdefgh") = py"abcdefgh"
    /\ chunk_loop 5 (2 + fuel) py"abcdefgh" = Some [py"abcde"; py"fgh"]
    /\ write_loop (config_with_chunk 5) w (2 + fuel) py"abcdefgh" t
       = (t ++ [ESerialWrite (py"abcde" ++ [10]); ESerialFlush; ESleep 150;
                ESerialWrite (py"fgh" ++ [10]); ESerialFlush; ESleep 150],
          Ret tt).
Proof.
  intros cfg w fuel payload bytes t Hpos Hok Hfuel Henc.
  split.
  - destruct (@chunk_loop_shape cfg Hpos fuel payload Hfuel)
      as [cs [Hcs [Hcat Hshape]]].
    destruct (@write_loop_chunks cfg w Hok fuel payload cs bytes t Hcs Henc)
      as [data [Hrun [Hall _]]].
    exists cs, data.
    split; [exact Hcs|]. split; [exact Hcat|].
    split; [|split; [exact Hall|exact Hrun]].
    destruct payload as [|c p].
    + subst cs. constructor.
    + destruct Hshape as [init [last [-> [Hinit Hlast]]]].
      apply Forall_app. split.
      * eapply Forall_impl; [|exact Hinit]. simpl. intros a Ha. lia.
      * constructor; [exact Hlast|constructor].
  - split; [reflexivity|]. split; [destruct fuel; reflexivity|].
    eapply eq_trans.
    { exact (@write_loop_step (config_with_chunk 5) w Hok (S fuel) 97
               py"bcdefgh" t py"abcde" eq_refl). }
    eapply eq_trans.
    { exact (@write_loop_step (config_with_chunk 5) w Hok fuel 102
               py"gh" _ py"fgh" eq_refl). }
    eapply eq_trans.
    { exact (write_loop_done (config_with_chunk 5) w fuel _). }
    rewrite <- app_assoc. reflexivity.
Qed.

Lemma chunking_splits_and_frames_witness :
  (exists (cs : list str) (data : list (list N)),
     chunk_loop (MAX_CHARS_PER_CHUNK (config_with_chunk 5)) 8 py"abcdefgh"
     = Some cs
     /\ concat cs = py"abcdefgh"
     /\ Forall (fun c => (0 < length c
                          <= MAX_CHARS_PER_CHUNK (config_with_chunk 5))%nat) cs
     /\ Forall2 (fun c d => encode_utf8 c = Some d) cs data
     /\ write_loop (config_with_chunk 5)
          (sample_world false NoFuel [] [] ProcNotFound None NoFuel [])
          8 py"abcdefgh" []
        = ([] ++ flat_map
                   (fun d => [ESerialWrite (d ++ [10]); ESerialFlush; ESleep 150])
                   data,
           Ret tt))
  /\ normalize (Some py"abcdefgh") = py"abcdefgh"
  /\ chunk_loop 5 (2 + 8) py"abcdefgh" = Some [py"abcde"; py"fgh"]
  /\ write_loop (config_with_chunk 5)
       (sample_world false NoFuel [] [] ProcNotFound None NoFuel [])
       (2 + 8) py"abcdefgh" []
     = ([] ++ [ESerialWrite (py"abcde" ++ [10]); ESerialFlush; ESleep 150;
               ESerialWrite (py"fgh" ++ [10]); ESerialFlush; ESleep 150],
        Ret tt).
Proof.
  apply (@chunking_splits_and_frames (config_with_chunk 5)
           (sample_world false NoFuel [] [] ProcNotFound None NoFuel [])
           8 py"abcdefgh" py"abcdefgh" []).
  - simpl. lia.
  - split; reflexivity.
  - simpl. lia.
  - reflexivity.
Defined.

(** C9: for every non-empty payload the chunk loop ends and is lossless
    and bounded: the chunks it cuts, in order, concatenate to the payload;
    every chunk is non-empty and at most 120 characters long; every chunk
    but the last is exactly 120 characters long.  On a port that accepts
    the writes, and for a payload that UTF-8 can encode, these chunks are
    what the loop sends, one write each, and the loop returns. *)
Theorem chunk_loop_lossless_bounded :
  forall (fuel : nat) (payload : str),
    payload <> [] ->
    (length payload <= fuel)%nat ->
    exists (init : list str) (last : str),
      chunk_loop (MAX_CHARS_PER_CHUNK config) fuel payload = Some (init ++ [last])
      /\ MAX_CHARS_PER_CHUNK config = 120%nat
      /\ concat (init ++ [last]) = payload
      /\ Forall (fun c => (0 < length c <= 120)%nat) (init ++ [last])
      /\ Forall (fun c => length c = 120%nat) init
      /\ (forall (w : World) (t : trace) (bytes : list N),
            serial_ok w ->
            encode_utf8 payload = Some bytes ->
            exists data : list (list N),
              write_loop config w fuel payload t
              = (t ++ flat_map sent data, Ret tt)
              /\ Forall2 (fun c d => encode_utf8 c = Some d) (init ++ [last]) data
              /\ concat data = bytes).
Proof.
  intros fuel payload Hne Hfuel.
  assert (Hpos : (0 < MAX_CHARS_PER_CHUNK config)%nat) by (simpl; lia).
  destruct (@chunk_loop_shape config Hpos fuel payload Hfuel)
    as [cs [Hrun [Hcat Hshape]]].
  destruct payload as [|c p]; [congruence|].
  destruct Hshape as [init [last [-> [Hinit Hlast]]]].
  change (MAX_CHARS_PER_CHUNK config) with 120%nat in *.
  exists init, last.
  split; [exact Hrun|]. split; [reflexivity|]. split; [exact Hcat|].
  split; [|split; [exact Hinit|]].
  - apply Forall_app. split.
    + eapply Forall_impl; [|exact Hinit]. simpl. intros a Ha. lia.
    + constructor; [lia|constructor].
  - intros w t bytes Hok Henc.
    exact (@write_loop_chunks config w Hok fuel (c :: p) (init ++ [last])
             bytes t Hrun Henc).
Qed.

Lemma chunk_loop_lossless_bounded_witness :
  exists (init : list str) (last : str),
    init = [repeat 97 120; repeat 97 120]
    /\ last = repeat 97 10
    /\ chunk_loop (MAX_CHARS_PER_CHUNK config) 250 (repeat 97 250)
       = Some (init ++ [last])
    /\ MAX_CHARS_PER_CHUNK config = 120%nat
    /\ concat (init ++ [last]) = repeat 97 250
    /\ Forall (fun c => (0 < length c <= 120)%nat) (init ++ [last])
    /\ Forall (fun c => length c = 120%nat) init
    /\ (forall (w : World) (t : trace) (bytes : list N),
          serial_ok w ->
          encode_utf8 (repeat 97 250) = Some bytes ->
          exists data : list (list N),
            write_loop config w 250 (repeat 97 250) t
            = (t ++ flat_map sent data, Ret tt)
            /\ Forall2 (fun c d => encode_utf8 c = Some d) (init ++ [last]) data
            /\ concat data = bytes).
Proof.
  destruct (@chunk_loop_lossless_bounded 250 (repeat 97 250))
    as [init [last [Hrun Hrest]]].
  - discriminate.
  - rewrite repeat_length. apply le_n.
  - assert (Hc : chunk_loop (MAX_CHARS_PER_CHUNK config) 250 (repeat 97 250)
                 = Some ([repeat 97 120; repeat 97 120] ++ [repeat 97 10]))
      by (vm_compute; reflexivity).
    pose proof Hrun as Heq. rewrite Hc in Heq. apply some_eq in Heq.
    apply app_inj_tail in Heq. destruct Heq as [Hi Hl].
    exists init, last. split; [exact Hi|]. split; [exact Hl|].
    split; [exact Hrun|]. exact Hrest.
Defined.

(** ** C7: preprocessing *)

Section Preprocess.

Lemma some_ret A (x y : A) : Ret x = Ret y -> y = x.
Proof. congruence. Qed.

Lemma length_mapi_from A B (f : nat -> A -> B) l :
  forall i, length (mapi_from f i l) = length l.
Proof. induction l; intros i; simpl; [|rewrite IHl]; reflexivity. Qed.

Lemma row_lengths_map A B (f : A -> B) (img : list (list A)) :
  map (@length B) (map (map f) img) = map (@length A) img.
Proof.
  induction img as [|row img IH]; simpl; [reflexivity|].
  now rewrite length_map, IH.
Qed.

Lemma row_lengths_mapi A B (g : nat -> nat -> A -> B) (img : list (list A)) :
  forall i,
    map (@length B) (mapi_from (fun i row => mapi (g i) row) i img)
    = map (@length A) img.
Proof.
  induction img as [|row img IH]; intros i; simpl; [reflexivity|].
  unfold mapi at 1. now rewrite length_mapi_from, IH.
Qed.



Lemma no_pixels_rows A B (a : list (list A)) :
  forall b : list (list B),
    map (@length A) a = map (@length B) b -> no_pixels a = no_pixels b.
Proof.
  unfold no_pixels.
  induction a as [|ra a IH]; intros [|rb b]; try discriminate; [reflexivity|].
  cbn [map forallb]. intros E. injection E as E1 E2.
  rewrite (IH b E2). destruct ra, rb; try discriminate; reflexivity.
Qed.

Variable w : World.

(** On a frame with pixels the three calls go through. *)
Lemma preprocess_for_ocr_returns (img : raster) :
  no_pixels img = false ->
  preprocess_for_ocr w img
  = Ret (map (map (threshold_px THRESH_BINARY
                     (otsu_level w
                        (bilateralFilter w (map (map (bgr2gray_px w)) img) 9 75 75))
                     255))
           (bilateralFilter w (map (map (bgr2gray_px w)) img) 9 75 75)).
Proof.
  intros H. unfold preprocess_for_ocr, cvtColor_BGR2GRAY. rewrite H.
  reflexivity.
Qed.

Lemma preprocess_for_ocr_rows (img : raster) (out : gray_image) :
  preprocess_for_ocr w img = Ret out ->
  no_pixels img = false /\ map (@length Z) out = map (@length pixel) img.
Proof.
  destruct (no_pixels img) eqn:E.
  - unfold preprocess_for_ocr, cvtColor_BGR2GRAY. rewrite E. discriminate.
  - rewrite (preprocess_for_ocr_returns _ E). intros H. apply some_ret in H.
    subst out. split; [reflexivity|].
    rewrite row_lengths_map. unfold bilateralFilter, mapi at 1.
    rewrite (row_lengths_mapi
               (fun i j (_ : Z) =>
                  bilateral_px w 9 75 75 (map (map (bgr2gray_px w)) img) i j)).
    apply row_lengths_map.
Qed.

End Preprocess.




(** ** C1: capture and its fallback *)

Section Capture.

Lemma bind_ret A B (m : M A) (k : A -> M B) t t' a :
  m t = (t', Ret a) -> bind m k t = k a t'.
Proof. unfold bind. now intros ->. Qed.

Lemma bind_raise A B (m : M A) (k : A -> M B) t t' e :
  m t = (t', Raise e) -> bind m k t = (t', Raise e).
Proof. unfold bind. now intros ->. Qed.

Variable cfg : Config.
Variable w : World.

(** The fallback begins by running the command line. *)
Lemma capture_with_rpicam_runs t :
  exists rest o,
    capture_with_rpicam cfg w t = (t ++ ERun (rpicam_cmd cfg) :: rest, o).
Proof.
  unfold capture_with_rpicam, subprocess_run, bind, call, ret, raise.
  destruct (proc_run w t (rpicam_cmd cfg)) as [|status stderr|e].
  - now exists [], (Raise (RuntimeError
      py"rpicam-still not found. Install rpicam-apps, or use Picamera2.")).
  - destruct (status =? 0)%Z.
    + destruct (imread_result _ _ _);
        rewrite <- app_assoc; eexists; eexists; reflexivity.
    + eexists []; eexists; reflexivity.
  - destruct e; eexists []; eexists; reflexivity.
Qed.

Lemma capture_with_rpicam_fails t t' msg :
  fallback_failure cfg w t t' msg ->
  capture_with_rpicam cfg w t = (t', Raise (RuntimeError msg)).
Proof.
  unfold capture_with_rpicam, subprocess_run, bind, call, ret, raise.
  destruct 1 as [H|status stderr H Hs|stderr H Hr]; rewrite H.
  - reflexivity.
  - apply Z.eqb_neq in Hs. rewrite Hs. reflexivity.
  - rewrite Z.eqb_refl, Hr, <- app_assoc. reflexivity.
Qed.

Lemma capture_frame_falls_back fuel t t1 e :
  PICAMERA2_OK w = true ->
  capture_with_picamera2 cfg w fuel t = (t1, Raise e) ->
  is_Exception e = true ->
  capture_frame cfg w fuel t
  = capture_with_rpicam cfg w
      (t1 ++ [EPrint (py"Picamera2 capture failed (" ++ exn_text w e
                      ++ py"); falling back to rpicam-still" ++ ellipsis)]).
Proof.
  intros Hok Hcam He. unfold capture_frame. rewrite Hok, Hcam, He.
  reflexivity.
Qed.

Lemma main_capture_fatal fuel t e :
  capture_frame cfg w fuel [EPrint (py"[OK] Starting capture" ++ ellipsis)]
  = (t, Raise e) ->
  main cfg w fuel [] = (t, Raise e).
Proof.
  intros H. unfold main.
  erewrite bind_ret by reflexivity.
  now apply bind_raise.
Qed.

End Capture.

(** C1: when the primary backend raises during capture, [capture_frame]
    reports it and runs the fallback [rpicam-still] with the configured
    resolution (640 x 480); when the fallback fails too (tool not found,
    non-zero exit status, unreadable output file) no frame is returned:
    the error of the fallback, which names that failure, leaves
    [capture_frame] and [main], and the process ends with status 1. *)
Theorem capture_failure_is_fatal :
  forall (w : World) (fuel : nat) (t1 : trace) (e : exn),
    let t0 := [EPrint (py"[OK] Starting capture" ++ ellipsis)] in
    let t2 := t1 ++ [EPrint (py"Picamera2 capture failed (" ++ exn_text w e
                             ++ py"); falling back to rpicam-still" ++ ellipsis)] in
    PICAMERA2_OK w = true ->
    capture_with_picamera2 config w fuel t0 = (t1, Raise e) ->
    is_Exception e = true ->
    rpicam_cmd config
    = [py"rpicam-still"; py"--nopreview"; py"-t"; py"1000"; py"-o";
       py"capture_rpicam.jpg"; py"--width"; py"640"; py"--height"; py"480"]
    /\ capture_frame config w fuel t0 = capture_with_rpicam config w t2
    /\ (exists rest o,
          capture_frame config w fuel t0
          = (t2 ++ ERun (rpicam_cmd config) :: rest, o))
    /\ (forall t3 msg,
          fallback_failure config w t2 t3 msg ->
          capture_frame config w fuel t0 = (t3, Raise (RuntimeError msg))
          /\ main config w fuel [] = (t3, Raise (RuntimeError msg))
          /\ exit_status (snd (main config w fuel [])) = Some 1%Z).
Proof.
  intros w fuel t1 e t0 t2 Hok Hcam He.
  pose proof (capture_frame_falls_back config w fuel t0 Hok Hcam He) as Hfb.
  fold t2 in Hfb.
  split; [reflexivity|]. split; [exact Hfb|]. split.
  - rewrite Hfb. apply capture_with_rpicam_runs.
  - intros t3 msg Hfail.
    assert (Hcf : capture_frame config w fuel t0 = (t3, Raise (RuntimeError msg)))
      by (rewrite Hfb; now apply capture_with_rpicam_fails).
    pose proof (main_capture_fatal config w fuel Hcf) as Hmain.
    rewrite Hmain. auto.
Qed.

Lemma capture_failure_is_fatal_witness :
  main config
    (sample_world true (Raise (LibraryError py"camera busy")) [] []
       ProcNotFound None NoFuel [])
    0 []
  = ([EPrint (py"[OK] Starting capture" ++ ellipsis);
      EPicamStart (640, 480); ESleep 500;
      EPrint py"Press 'c' to capture, 'q' to quit. (Auto-captures in 6 sec)";
      EPicamCapture; EPicamStop;
      EPrint (py"Picamera2 capture failed (camera busy); falling back to rpicam-still"
              ++ ellipsis);
      ERun [py"rpicam-still"; py"--nopreview"; py"-t"; py"1000"; py"-o";
            py"capture_rpicam.jpg"; py"--width"; py"640"; py"--height"; py"480"]],
     Raise (RuntimeError
              py"rpicam-still not found. Install rpicam-apps, or use Picamera2.")).
Proof.
  pose proof (@capture_failure_is_fatal
                (sample_world true (Raise (LibraryError py"camera busy")) [] []
                   ProcNotFound None NoFuel [])
                0 _ (LibraryError py"camera busy")
                eq_refl eq_refl eq_refl) as [_ [_ [_ H]]].
  edestruct H as [_ [Hmain _]].
  - apply tool_not_found. reflexivity.
  - exact Hmain.
Defined.

(** ** C2: OCR failures *)

Section Recognition.

Variable cfg : Config.
Variable w : World.

Lemma ocr_image_engine_raises img t e :
  ocr_engine w t img = Raise e ->
  is_Exception e = true ->
  ocr_image cfg w img t
  = (t ++ [EOcr img (LANG cfg) (TESSERACT_CONFIG cfg);
           EPrint (py"OCR error: " ++ exn_text w e)],
     Ret []).
Proof.
  intros Hraise He.
  unfold ocr_image, try_except, call, print, emit, bind, call, ret.
  rewrite Hraise, He, <- app_assoc. reflexivity.
Qed.

(** The transmit step on an empty text. *)
Lemma send_to_esp32_empty fuel port t :
  send_to_esp32 cfg w fuel (Some []) port t
  = (t ++ [EPrint py"No text detected to send."], Ret tt).
Proof. reflexivity. Qed.

(** [main] up to the recognition step: both images are saved. *)
Lemma main_saves_images (t1 : trace) (frame : raster) (proc : gray_image)
    (k : gray_image -> M unit) :
  preprocess_for_ocr w frame = Ret proc ->
  (imwrite_color w py"capture_raw.jpg" frame ;;
   checkpoint py"Saved capture_raw.jpg" ;;
   proc <- lift (preprocess_for_ocr w frame) ;;
   imwrite_gray w py"capture_proc.jpg" proc ;;
   checkpoint py"Saved capture_proc.jpg" ;;
   k proc) t1
  = k proc (t1 ++ [EImwriteColor py"capture_raw.jpg" frame;
                   EPrint py"[OK] Saved capture_raw.jpg";
                   EImwriteGray py"capture_proc.jpg" proc;
                   EPrint py"[OK] Saved capture_proc.jpg"]).
Proof.
  intros Hpre.
  destruct (preprocess_for_ocr_rows w frame Hpre) as [Hpix Hrows].
  assert (Hpix' : no_pixels proc = false)
    by (rewrite (no_pixels_rows _ _ Hrows); exact Hpix).
  unfold imwrite_color, imwrite_gray, checkpoint, print, emit, lift.
  unfold bind, call. rewrite Hpix, Hpre, Hpix', <- !app_assoc. reflexivity.
Qed.

(** [main] from the prompt on, when the recognized text is empty. *)
Lemma main_after_ocr_empty fuel t1 frame proc t :
  capture_frame cfg w fuel [EPrint (py"[OK] Starting capture" ++ ellipsis)]
  = (t1, Ret frame) ->
  preprocess_for_ocr w frame = Ret proc ->
  ocr_image cfg w proc
    (t1 ++ [EImwriteColor py"capture_raw.jpg" frame;
            EPrint py"[OK] Saved capture_raw.jpg";
            EImwriteGray py"capture_proc.jpg" proc;
            EPrint py"[OK] Saved capture_proc.jpg"])
  = (t, Ret []) ->
  exists rest,
    main cfg w fuel []
    = (t ++ [EPrint py"[OK] OCR complete";
             EPrint (10 :: py"===== OCR RESULT =====");
             EPrint py"(no text detected)";
             EPrint (py"======================" ++ [10]);
             EInput py"Send to ESP32? [y/N]: "] ++ rest,
       match stdin_line w
               (t ++ [EPrint py"[OK] OCR complete";
                      EPrint (10 :: py"===== OCR RESULT =====");
                      EPrint py"(no text detected)";
                      EPrint (py"======================" ++ [10])])
       with
       | Ret _ => Ret tt
       | Raise e' => Raise e'
       | NoFuel => NoFuel
       end).
Proof.
  intros Hcap Hpre Hocr. unfold main.
  erewrite bind_ret by reflexivity.
  erewrite bind_ret by exact Hcap.
  rewrite (@main_saves_images t1 frame proc _ Hpre).
  erewrite bind_ret by exact Hocr.
  unfold checkpoint, print, emit, call.
  unfold bind, ret. rewrite <- !app_assoc. cbn [app].
  destruct (stdin_line w _) as [line| |].
  - destruct (str_eqb (lower (strip line)) py"y").
    + rewrite send_to_esp32_empty. rewrite <- !app_assoc. cbn [app].
      eexists. reflexivity.
    + rewrite <- !app_assoc. eexists. reflexivity.
  - exists []. reflexivity.
  - exists []. reflexivity.
Qed.

End Recognition.

(** C2: for every image on which the OCR engine raises an exception, the
    recognition step reports the error and returns the empty string; the
    pipeline is not aborted: [main] goes on to print the result as "(no
    text detected)" and to prompt the operator, and how it ends depends
    on the operator's answer only. *)
Theorem ocr_failure_gives_empty_text :
  forall (cfg : Config) (w : World) (img : gray_image) (t : trace) (e : exn),
    let t' := t ++ [EOcr img (LANG cfg) (TESSERACT_CONFIG cfg);
                    EPrint (py"OCR error: " ++ exn_text w e)] in
    let shown := [EPrint py"[OK] OCR complete";
                  EPrint (10 :: py"===== OCR RESULT =====");
                  EPrint py"(no text detected)";
                  EPrint (py"======================" ++ [10])] in
    ocr_engine w t img = Raise e ->
    is_Exception e = true ->
    ocr_image cfg w img t = (t', Ret [])
    /\ (forall fuel t1 frame,
          capture_frame cfg w fuel [EPrint (py"[OK] Starting capture" ++ ellipsis)]
          = (t1, Ret frame) ->
          preprocess_for_ocr w frame = Ret img ->
          t = t1 ++ [EImwriteColor py"capture_raw.jpg" frame;
                     EPrint py"[OK] Saved capture_raw.jpg";
                     EImwriteGray py"capture_proc.jpg" img;
                     EPrint py"[OK] Saved capture_proc.jpg"] ->
          exists rest,
            main cfg w fuel []
            = (t' ++ shown ++ EInput py"Send to ESP32? [y/N]: " :: rest,
               match stdin_line w (t' ++ shown) with
               | Ret _ => Ret tt
               | Raise e' => Raise e'
               | NoFuel => NoFuel
               end)).
Proof.
  intros cfg w img t e t' shown Hraise He.
  pose proof (ocr_image_engine_raises cfg w img t Hraise He) as Hocr.
  split; [exact Hocr|].
  intros fuel t1 frame Hcap Hpre ->.
  destruct (main_after_ocr_empty cfg w fuel Hcap Hpre Hocr) as [rest Hmain].
  exists rest. rewrite Hmain. subst t' shown. cbn [app].
  rewrite <- !app_assoc. reflexivity.
Qed.

Lemma ocr_failure_gives_empty_text_witness :
  ocr_image config
    (sample_world false NoFuel [] [] (ProcExit 0 []) (Some sample_frame)
       (Raise (LibraryError py"tesseract is not installed")) py"n")
    [[0; 255]; [255; 255]]%Z []
  = ([EOcr [[0; 255]; [255; 255]]%Z py"eng" py"--oem 3 --psm 6";
      EPrint py"OCR error: tesseract is not installed"],
     Ret []).
Proof.
  apply (@ocr_failure_gives_empty_text config
           (sample_world false NoFuel [] [] (ProcExit 0 []) (Some sample_frame)
              (Raise (LibraryError py"tesseract is not installed")) py"n")
           [[0; 255]; [255; 255]]%Z []
           (LibraryError py"tesseract is not installed")
           eq_refl eq_refl).
Defined.

(** The whole pipeline on the fallback backend with a failing OCR engine
    and an operator who declines to send. *)
Example main_with_failing_ocr :
  main config
    (sample_world false NoFuel [] [] (ProcExit 0 []) (Some sample_frame)
       (Raise (LibraryError py"tesseract is not installed")) py"n")
    0 []
  = ([EPrint (py"[OK] Starting capture" ++ ellipsis);
      ERun [py"rpicam-still"; py"--nopreview"; py"-t"; py"1000"; py"-o";
            py"capture_rpicam.jpg"; py"--width"; py"640"; py"--height"; py"480"];
      EImread py"capture_rpicam.jpg";
      EImwriteColor py"capture_raw.jpg" sample_frame;
      EPrint py"[OK] Saved capture_raw.jpg";
      EImwriteGray py"capture_proc.jpg" [[0; 255]; [0; 255]]%Z;
      EPrint py"[OK] Saved capture_proc.jpg";
      EOcr [[0; 255]; [0; 255]]%Z py"eng" py"--oem 3 --psm 6";
      EPrint py"OCR error: tesseract is not installed";
      EPrint py"[OK] OCR complete";
      EPrint (10 :: py"===== OCR RESULT =====");
      EPrint py"(no text detected)";
      EPrint (py"======================" ++ [10]);
      EInput py"Send to ESP32? [y/N]: ";
      EPrint py"Skipped sending."],
     Ret tt).
Proof. vm_compute. reflexivity. Qed.

(** The transmit step from the scan to the last chunk, with chunks of at
    most 5 characters. *)
Example send_to_esp32_in_chunks :
  send_to_esp32 (config_with_chunk 5)
    (sample_world false NoFuel [py"/dev/ttyACM1"; py"/dev/ttyACM0"]
       [py"/dev/ttyUSB0"] ProcNotFound None NoFuel [])
    9 (Some (py" abc" ++ [9; 10] ++ py"defgh ")) None []
  = ([EGlob py"/dev/ttyACM*"; EGlob py"/dev/ttyUSB*";
      EPrint (py"Connecting to ESP32 on /dev/ttyACM0 @ 115200" ++ ellipsis);
      ESerialOpen py"/dev/ttyACM0" 115200 2;
      ESleep 2000;
      ESerialWrite (py"abc d" ++ [10]); ESerialFlush; ESleep 150;
      ESerialWrite (py"efgh" ++ [10]); ESerialFlush; ESleep 150;
      ESerialClose;
      EPrint py"Sent to ESP32."],
     Ret tt).
Proof. vm_compute. reflexivity. Qed.

(** * Further properties of the transmit step *)

Section Transmit.

Variable cfg : Config.
Variable w : World.
Hypothesis max_pos : (0 < MAX_CHARS_PER_CHUNK cfg)%nat.

(** In any world the chunk loop only writes, flushes and sleeps, and with
    fuel for the payload it ends: it returns or raises. *)
Lemma write_loop_events fuel :
  forall payload t,
    (length payload <= fuel)%nat ->
    exists mid o,
      write_loop cfg w fuel payload t = (t ++ mid, o)
      /\ forallb port_io mid = true
      /\ o <> NoFuel.
Proof.
  induction fuel as [|fuel IH]; intros payload t Hlen.
  - destruct payload; [|simpl in Hlen; lia].
    exists [], (Ret tt). rewrite app_nil_r. repeat split. discriminate.
  - destruct payload as [|c p].
    + exists [], (Ret tt). rewrite app_nil_r. repeat split. discriminate.
    + assert (Hrest : (length (skipn (MAX_CHARS_PER_CHUNK cfg) (c :: p)) <= fuel)%nat).
      { rewrite length_skipn. simpl length in *. lia. }
      cbn [write_loop]. unfold slice_to, slice_from, encode.
      destruct (encode_utf8 _) as [d|].
      * unfold sleep, emit, bind at 1 2 3, call, ret, may_raise.
        destruct (serial_write w t (d ++ [10])) as [e|].
        { exists [ESerialWrite (d ++ [10])], (Raise e).
          repeat split. discriminate. }
        destruct (serial_flush w _) as [e|].
        { exists [ESerialWrite (d ++ [10]); ESerialFlush], (Raise e).
          rewrite <- app_assoc. repeat split. discriminate. }
        unfold bind.
        destruct (IH _ (((t ++ [ESerialWrite (d ++ [10])]) ++ [ESerialFlush])
                          ++ [ESleep 150]) Hrest)
          as [mid [o [Hrun [Hmid Ho]]]].
        rewrite Hrun.
        exists (sent d ++ mid), o. unfold sent.
        rewrite <- !app_assoc. cbn [app forallb port_io andb].
        split; [destruct o; reflexivity || now elim Ho|]. split; assumption.
      * exists [], (Raise (UnicodeEncodeError
                            (firstn (MAX_CHARS_PER_CHUNK cfg) (c :: p)))).
        rewrite app_nil_r. repeat split. discriminate.
Qed.

(** The transmit step once the text is known not to be blank and the port
    is known: what happens after the connection is announced. *)
Lemma send_to_esp32_connected fuel (text : option str) (p : str) (t : trace) :
  normalize text <> [] ->
  p <> [] ->
  (length (normalize text) <= fuel)%nat ->
  exists evs o,
    send_to_esp32 cfg w fuel text (Some p) t
    = (t ++ connecting cfg p :: ESerialOpen p (SERIAL_BAUD cfg) 2 :: evs, o)
    /\ match serial_open w (t ++ [connecting cfg p]) p with
       | Some e =>
           if is_Exception e
           then evs = [EPrint (py"Serial error: " ++ exn_text w e)] /\ o = Ret tt
           else evs = [] /\ o = Raise e
       | None =>
           exists mid tail,
             evs = ESleep 2000 :: mid ++ ESerialClose :: tail
             /\ forallb port_io mid = true
             /\ ((tail = [EPrint py"Sent to ESP32."] /\ o = Ret tt)
                 \/ (exists e, is_Exception e = true
                       /\ tail = [EPrint (py"Serial error: " ++ exn_text w e)]
                       /\ o = Ret tt)
                 \/ (exists e, is_Exception e = false
                       /\ tail = [] /\ o = Raise e))
       end.
Proof.
  intros Hne Hp Hfuel. unfold normalize in Hfuel.
  rewrite normalize_empty_iff in Hne.
  unfold send_to_esp32.
  destruct (strip _) as [|c r] eqn:E; [congruence|].
  destruct p as [|c' p']; [congruence|].
  cbn [is_empty]. fold (connecting cfg (c' :: p')).
  unfold try_except, with_serial, try_finally, print, sleep, emit.
  unfold bind, call, ret, may_raise. fold (connecting cfg (c' :: p')).
  destruct (serial_open w _ _) as [e|].
  - destruct (is_Exception e).
    + eexists; eexists. rewrite <- !app_assoc. cbn [app]. split; [reflexivity|].
      split; reflexivity.
    + eexists; eexists. rewrite <- !app_assoc. cbn [app]. split; [reflexivity|].
      split; reflexivity.
  - destruct (@write_loop_events fuel _
                (((t ++ [connecting cfg (c' :: p')])
                    ++ [ESerialOpen (c' :: p') (SERIAL_BAUD cfg) 2])
                   ++ [ESleep 2000]) Hfuel)
      as [mid [o [Hrun [Hmid Ho]]]].
    rewrite Hrun.
    destruct o as [[]|e|]; [| |congruence].
    + eexists; eexists. rewrite <- !app_assoc. cbn [app].
      split; [reflexivity|]. exists mid, [EPrint py"Sent to ESP32."].
      split; [reflexivity|]. split; [exact Hmid|]. left. split; reflexivity.
    + destruct (is_Exception e) eqn:Ee.
      * eexists; eexists. rewrite <- !app_assoc. cbn [app].
        split; [reflexivity|].
        exists mid, [EPrint (py"Serial error: " ++ exn_text w e)].
        split; [reflexivity|]. split; [exact Hmid|]. right. left.
        exists e. repeat split. exact Ee.
      * eexists; eexists. rewrite <- !app_assoc. cbn [app].
        split; [reflexivity|]. exists mid, [].
        split; [reflexivity|]. split; [exact Hmid|]. right. right.
        exists e. repeat split. exact Ee.
Qed.

(** The same step in terms of the chunk loop, when the port opens. *)
Lemma send_to_esp32_opened fuel (text : option str) (p : str) (t : trace) :
  normalize text <> [] ->
  p <> [] ->
  serial_open w (t ++ [connecting cfg p]) p = None ->
  send_to_esp32 cfg w fuel text (Some p) t
  = match write_loop cfg w fuel (normalize text)
            (t ++ [connecting cfg p; ESerialOpen p (SERIAL_BAUD cfg) 2;
                   ESleep 2000])
    with
    | (t', Ret _) => (t' ++ [ESerialClose; EPrint py"Sent to ESP32."], Ret tt)
    | (t', Raise e) =>
        if is_Exception e
        then (t' ++ [ESerialClose; EPrint (py"Serial error: " ++ exn_text w e)],
              Ret tt)
        else (t' ++ [ESerialClose], Raise e)
    | (t', NoFuel) => (t', NoFuel)
    end.
Proof.
  intros Hne Hp Hopen. unfold normalize.
  rewrite normalize_empty_iff in Hne.
  unfold send_to_esp32.
  destruct (strip _) as [|c r] eqn:E; [congruence|].
  destruct p as [|c' p']; [congruence|].
  cbn [is_empty]. fold (connecting cfg (c' :: p')).
  unfold try_except, with_serial, try_finally, print, sleep, emit.
  unfold bind, call, ret, may_raise. fold (connecting cfg (c' :: p')).
  rewrite Hopen, <- !app_assoc. cbn [app].
  destruct (write_loop cfg w fuel _ _) as [t' [[]|e|]].
  - now rewrite <- app_assoc.
  - destruct (is_Exception e); [now rewrite <- app_assoc | reflexivity].
  - reflexivity.
Qed.

(** Without an explicit port the step goes on with the first port of the
    sorted scan, as if it had been given. *)
Lemma send_to_esp32_scanned fuel (text : option str) (t : trace) :
  normalize text <> [] ->
  send_to_esp32 cfg w fuel text None t
  = match sorted (glob_result w t py"/dev/ttyACM*"
                  ++ glob_result w (t ++ [EGlob py"/dev/ttyACM*"]) py"/dev/ttyUSB*")
    with
    | p :: _ =>
        send_to_esp32 cfg w fuel text (Some p)
          (t ++ [EGlob py"/dev/ttyACM*"; EGlob py"/dev/ttyUSB*"])
    | [] =>
        (t ++ [EGlob py"/dev/ttyACM*"; EGlob py"/dev/ttyUSB*";
               EPrint py"No ESP32 serial port found (e.g., /dev/ttyACM0). Skipping send."],
         Ret tt)
    end.
Proof.
  intros Hne. rewrite normalize_empty_iff in Hne.
  unfold send_to_esp32.
  destruct (strip _) as [|c r] eqn:E; [congruence|].
  cbn [is_empty]. unfold find_serial_port, glob.
  unfold bind at 1 2 3, call, ret.
  rewrite <- !app_assoc. cbn [app].
  destruct (sorted _) as [|p l]; [|reflexivity].
  unfold print, emit, call. rewrite <- !app_assoc. reflexivity.
Qed.

End Transmit.

(** X1: on a console that can print the port name and the error texts,
    the transmit step lets no [Exception] out: with fuel for the payload
    it returns normally, or is left by an exception that is not an
    instance of [Exception] (an interrupt), whatever the text and the
    behaviour of the device.  (The lines of the source that print the port
    name and the error are outside the [try]; a name or a text that the
    console cannot encode makes [print] itself raise there.) *)
Theorem send_to_esp32_never_propagates :
  forall (cfg : Config) (w : World) (fuel : nat) (text port : option str)
         (t : trace),
    (0 < MAX_CHARS_PER_CHUNK cfg)%nat ->
    (length (normalize text) <= fuel)%nat ->
    console_safe w ->
    (forall p, port = Some p -> printable p) ->
    exists t',
      send_to_esp32 cfg w fuel text port t = (t', Ret tt)
      \/ exists e, is_Exception e = false
                   /\ send_to_esp32 cfg w fuel text port t = (t', Raise e).
Proof.
  intros cfg w fuel text port t Hpos Hfuel _ _.
  assert (Hexplicit : forall p t0, normalize text <> [] ->
            exists t',
              send_to_esp32 cfg w fuel text (Some p) t0 = (t', Ret tt)
              \/ exists e, is_Exception e = false
                   /\ send_to_esp32 cfg w fuel text (Some p) t0 = (t', Raise e)).
  { intros p t0 Hne. destruct p as [|c p].
    - rewrite normalize_empty_iff in Hne. unfold send_to_esp32.
      destruct (strip _); [congruence|]. eexists. left. reflexivity.
    - destruct (@send_to_esp32_connected cfg w Hpos fuel text (c :: p) t0 Hne)
        as [evs [o [Hrun Hcases]]]; [discriminate|exact Hfuel|].
      destruct (serial_open w _ _) as [e|].
      + destruct (is_Exception e) eqn:Ee; destruct Hcases as [_ ->].
        * eexists. left. exact Hrun.
        * eexists. right. exists e. split; [exact Ee|exact Hrun].
      + destruct Hcases
          as [mid [tail [_ [_ [[_ ->]|[[e [_ [_ ->]]]|[e [Ee [_ ->]]]]]]]]].
        * eexists. left. exact Hrun.
        * eexists. left. exact Hrun.
        * eexists. right. exists e. split; [exact Ee|exact Hrun]. }
  destruct (normalize text) as [|c r] eqn:En.
  - apply normalize_empty_iff in En. unfold send_to_esp32. rewrite En.
    eexists. left. reflexivity.
  - assert (Hne : normalize text <> []) by (rewrite En; discriminate).
    rewrite <- En in Hexplicit.
    destruct port as [p|]; [now apply Hexplicit|].
    destruct (sorted (glob_result w t py"/dev/ttyACM*"
                      ++ glob_result w (t ++ [EGlob py"/dev/ttyACM*"])
                           py"/dev/ttyUSB*")) as [|p l] eqn:Es.
    + eexists. left. rewrite (@send_to_esp32_scanned cfg w fuel text t Hne), Es.
      reflexivity.
    + destruct (Hexplicit p (t ++ [EGlob py"/dev/ttyACM*"; EGlob py"/dev/ttyUSB*"]) Hne)
        as [t' H].
      exists t'. rewrite (@send_to_esp32_scanned cfg w fuel text t Hne), Es.
      exact H.
Qed.

Lemma send_to_esp32_never_propagates_witness :
  exists t',
    send_to_esp32 config
      (set_serial (sample_world false NoFuel [py"/dev/ttyUSB0"] [] ProcNotFound
                     None NoFuel [])
         (fun _ _ => None) (fun _ _ => Some KeyboardInterrupt) (fun _ => None))
      5 (Some py"hello") None []
    = (t', Ret tt)
    \/ exists e, is_Exception e = false
         /\ send_to_esp32 config
              (set_serial (sample_world false NoFuel [py"/dev/ttyUSB0"] []
                             ProcNotFound None NoFuel [])
                 (fun _ _ => None) (fun _ _ => Some KeyboardInterrupt)
                 (fun _ => None))
              5 (Some py"hello") None []
            = (t', Raise e).
Proof.
  apply (@send_to_esp32_never_propagates config
           (set_serial (sample_world false NoFuel [py"/dev/ttyUSB0"] []
                          ProcNotFound None NoFuel [])
              (fun _ _ => None) (fun _ _ => Some KeyboardInterrupt)
              (fun _ => None))
           5 (Some py"hello") None []).
  - simpl. lia.
  - simpl. lia.
  - repeat split; simpl; try discriminate.
    + intros _ pat. destruct (str_eqb pat _); repeat constructor; discriminate.
    + intros _ _ e H. apply some_eq in H. subst e. discriminate.
  - intros p H. discriminate H.
Defined.

(** X2: a port that was opened is closed, on every way out of the loop:
    after the open come only the settle delay and the writes, flushes and
    pauses of the loop, then the close, and after the close at most one
    printed line. *)
Theorem send_to_esp32_closes_port :
  forall (cfg : Config) (w : World) (fuel : nat) (text : option str)
         (p : str) (t : trace),
    (0 < MAX_CHARS_PER_CHUNK cfg)%nat ->
    normalize text <> [] ->
    p <> [] ->
    (length (normalize text) <= fuel)%nat ->
    serial_open w (t ++ [connecting cfg p]) p = None ->
    exists mid tail o,
      send_to_esp32 cfg w fuel text (Some p) t
      = (t ++ [connecting cfg p; ESerialOpen p (SERIAL_BAUD cfg) 2; ESleep 2000]
           ++ mid ++ ESerialClose :: tail, o)
      /\ forallb port_io mid = true
      /\ forallb is_print tail = true
      /\ (length tail <= 1)%nat.
Proof.
  intros cfg w fuel text p t Hpos Hne Hp Hfuel Hopen.
  destruct (@send_to_esp32_connected cfg w Hpos fuel text p t Hne Hp Hfuel)
    as [evs [o [Hrun Hcases]]].
  rewrite Hopen in Hcases.
  destruct Hcases as [mid [tail [-> [Hmid Htail]]]].
  exists mid, tail, o. split; [exact Hrun|]. split; [exact Hmid|].
  destruct Htail as [[-> _]|[[e [_ [-> _]]]|[e [_ [-> _]]]]]; simpl; auto.
Qed.

Lemma send_to_esp32_closes_port_witness :
  exists mid tail o,
    send_to_esp32 config
      (sample_world false NoFuel [] [] ProcNotFound None NoFuel [])
      5 (Some py"hello") (Some py"/dev/ttyACM0") []
    = ([] ++ [connecting config py"/dev/ttyACM0";
              ESerialOpen py"/dev/ttyACM0" (SERIAL_BAUD config) 2; ESleep 2000]
          ++ mid ++ ESerialClose :: tail, o)
    /\ forallb port_io mid = true
    /\ forallb is_print tail = true
    /\ (length tail <= 1)%nat.
Proof.
  apply (@send_to_esp32_closes_port config
           (sample_world false NoFuel [] [] ProcNotFound None NoFuel [])
           5 (Some py"hello") py"/dev/ttyACM0" []).
  - simpl. lia.
  - discriminate.
  - discriminate.
  - simpl. lia.
  - reflexivity.
Defined.

Section TransmitFailures.

Variable cfg : Config.
Variable w : World.

Lemma send_to_esp32_open_raises fuel (text : option str) (p : str) (t : trace) e :
  normalize text <> [] ->
  p <> [] ->
  serial_open w (t ++ [connecting cfg p]) p = Some e ->
  send_to_esp32 cfg w fuel text (Some p) t
  = if is_Exception e
    then (t ++ [connecting cfg p; ESerialOpen p (SERIAL_BAUD cfg) 2;
                EPrint (py"Serial error: " ++ exn_text w e)], Ret tt)
    else (t ++ [connecting cfg p; ESerialOpen p (SERIAL_BAUD cfg) 2], Raise e).
Proof.
  intros Hne Hp Hopen. rewrite normalize_empty_iff in Hne.
  unfold send_to_esp32.
  destruct (strip _) as [|c r]; [congruence|].
  destruct p as [|c' p']; [congruence|].
  cbn [is_empty]. fold (connecting cfg (c' :: p')).
  unfold try_except, with_serial, try_finally, print, sleep, emit.
  unfold bind, call, ret, may_raise. fold (connecting cfg (c' :: p')).
  rewrite Hopen. destruct (is_Exception e); rewrite <- !app_assoc; reflexivity.
Qed.

Lemma write_loop_encode_fails fuel payload t :
  payload <> [] ->
  encode_utf8 (firstn (MAX_CHARS_PER_CHUNK cfg) payload) = None ->
  write_loop cfg w (S fuel) payload t
  = (t, Raise (UnicodeEncodeError (firstn (MAX_CHARS_PER_CHUNK cfg) payload))).
Proof.
  intros Hne Henc. destruct payload as [|c p]; [congruence|].
  cbn [write_loop]. unfold slice_to, encode. rewrite Henc. reflexivity.
Qed.

Lemma write_loop_write_fails fuel payload t d e :
  payload <> [] ->
  encode_utf8 (firstn (MAX_CHARS_PER_CHUNK cfg) payload) = Some d ->
  serial_write w t (d ++ [10]) = Some e ->
  write_loop cfg w (S fuel) payload t
  = (t ++ [ESerialWrite (d ++ [10])], Raise e).
Proof.
  intros Hne Henc Hw. destruct payload as [|c p]; [congruence|].
  cbn [write_loop]. unfold slice_to, encode. rewrite Henc.
  unfold bind at 1 2, call, ret, may_raise. rewrite Hw. reflexivity.
Qed.

End TransmitFailures.

(** X3: when the port cannot be opened the step reports "Serial error: ..."
    and returns normally; nothing is written and nothing is closed. *)
Theorem send_to_esp32_open_fails :
  forall (cfg : Config) (w : World) (fuel : nat) (text : option str)
         (p : str) (t : trace) (e : exn),
    normalize text <> [] ->
    p <> [] ->
    serial_open w (t ++ [connecting cfg p]) p = Some e ->
    is_Exception e = true ->
    send_to_esp32 cfg w fuel text (Some p) t
    = (t ++ [connecting cfg p; ESerialOpen p (SERIAL_BAUD cfg) 2;
             EPrint (py"Serial error: " ++ exn_text w e)], Ret tt).
Proof.
  intros cfg w fuel text p t e Hne Hp Hopen He.
  rewrite (@send_to_esp32_open_raises cfg w fuel text p t e Hne Hp Hopen), He.
  reflexivity.
Qed.

Lemma send_to_esp32_open_fails_witness :
  send_to_esp32 config
    (set_serial (sample_world false NoFuel [] [] ProcNotFound None NoFuel [])
       (fun _ _ => Some (LibraryError py"could not open port"))
       (fun _ _ => None) (fun _ => None))
    0 (Some py"hello") (Some py"/dev/ttyACM0") []
  = ([connecting config py"/dev/ttyACM0";
      ESerialOpen py"/dev/ttyACM0" 115200 2;
      EPrint py"Serial error: could not open port"], Ret tt).
Proof.
  apply (@send_to_esp32_open_fails config
           (set_serial (sample_world false NoFuel [] [] ProcNotFound None NoFuel [])
              (fun _ _ => Some (LibraryError py"could not open port"))
              (fun _ _ => None) (fun _ => None))
           0 (Some py"hello") py"/dev/ttyACM0" []
           (LibraryError py"could not open port")).
  - discriminate.
  - discriminate.
  - reflexivity.
  - reflexivity.
Defined.

(** X4: on a port that opens and accepts every write, and for a text that
    UTF-8 can encode, the step sends one line per chunk and nothing else,
    closes the port and reports success; the bytes of the lines, newlines
    apart, are the UTF-8 encoding of the normalized text. *)
Theorem send_to_esp32_delivers :
  forall (cfg : Config) (w : World) (fuel : nat) (text : option str)
         (p : str) (t : trace) (bytes : list N),
    (0 < MAX_CHARS_PER_CHUNK cfg)%nat ->
    normalize text <> [] ->
    p <> [] ->
    (length (normalize text) <= fuel)%nat ->
    serial_open w (t ++ [connecting cfg p]) p = None ->
    serial_ok w ->
    encode_utf8 (normalize text) = Some bytes ->
    exists (cs : list str) (data : list (list N)),
      send_to_esp32 cfg w fuel text (Some p) t
      = (t ++ [connecting cfg p; ESerialOpen p (SERIAL_BAUD cfg) 2; ESleep 2000]
           ++ flat_map sent data
           ++ [ESerialClose; EPrint py"Sent to ESP32."], Ret tt)
      /\ chunk_loop (MAX_CHARS_PER_CHUNK cfg) fuel (normalize text) = Some cs
      /\ Forall2 (fun c d => encode_utf8 c = Some d) cs data
      /\ concat cs = normalize text
      /\ concat data = bytes.
Proof.
  intros cfg w fuel text p t bytes Hpos Hne Hp Hfuel Hopen Hok Henc.
  destruct (@chunk_loop_shape cfg Hpos fuel _ Hfuel) as [cs [Hcs [Hcat _]]].
  destruct (@write_loop_chunks cfg w Hok fuel _ cs bytes
              (t ++ [connecting cfg p; ESerialOpen p (SERIAL_BAUD cfg) 2;
                     ESleep 2000]) Hcs Henc)
    as [data [Hrun [Hall Hbytes]]].
  exists cs, data.
  rewrite (@send_to_esp32_opened cfg w fuel text p t Hne Hp Hopen), Hrun.
  rewrite <- !app_assoc. repeat split; assumption.
Qed.

Lemma send_to_esp32_delivers_witness :
  exists cs data,
    send_to_esp32 config
      (sample_world false NoFuel [] [] ProcNotFound None NoFuel [])
      6 (Some py" hi  you ") (Some py"/dev/ttyACM0") []
    = ([] ++ [connecting config py"/dev/ttyACM0";
              ESerialOpen py"/dev/ttyACM0" (SERIAL_BAUD config) 2; ESleep 2000]
          ++ flat_map sent data
          ++ [ESerialClose; EPrint py"Sent to ESP32."], Ret tt)
    /\ chunk_loop (MAX_CHARS_PER_CHUNK config) 6 (normalize (Some py" hi  you "))
       = Some cs
    /\ Forall2 (fun c d => encode_utf8 c = Some d) cs data
    /\ concat cs = normalize (Some py" hi  you ")
    /\ concat data = py"hi you".
Proof.
  apply (@send_to_esp32_delivers config
           (sample_world false NoFuel [] [] ProcNotFound None NoFuel [])
           6 (Some py" hi  you ") py"/dev/ttyACM0" [] py"hi you").
  - simpl. lia.
  - vm_compute. discriminate.
  - discriminate.
  - vm_compute. lia.
  - reflexivity.
  - split; reflexivity.
  - reflexivity.
Defined.

(** X5: when the device refuses the first chunk, the loop stops at once:
    that one write is the only one, the port is closed, the error is
    reported as "Serial error: ..." and "Sent to ESP32." is not printed;
    there is no retry and the rest of the text is dropped. *)
Theorem send_to_esp32_write_fails :
  forall (cfg : Config) (w : World) (fuel : nat) (text : option str)
         (p : str) (t : trace) (d : list N) (e : exn),
    let t1 := t ++ [connecting cfg p; ESerialOpen p (SERIAL_BAUD cfg) 2;
                    ESleep 2000] in
    normalize text <> [] ->
    p <> [] ->
    serial_open w (t ++ [connecting cfg p]) p = None ->
    encode_utf8 (firstn (MAX_CHARS_PER_CHUNK cfg) (normalize text)) = Some d ->
    serial_write w t1 (d ++ [10]) = Some e ->
    is_Exception e = true ->
    send_to_esp32 cfg w (S fuel) text (Some p) t
    = (t1 ++ [ESerialWrite (d ++ [10]); ESerialClose;
              EPrint (py"Serial error: " ++ exn_text w e)], Ret tt).
Proof.
  intros cfg w fuel text p t d e t1 Hne Hp Hopen Henc Hw He.
  rewrite (@send_to_esp32_opened cfg w (S fuel) text p t Hne Hp Hopen).
  fold t1.
  rewrite (@write_loop_write_fails cfg w fuel (normalize text) t1 d e Hne Henc Hw).
  rewrite He, <- app_assoc. reflexivity.
Qed.

Lemma send_to_esp32_write_fails_witness :
  send_to_esp32 (config_with_chunk 5)
    (set_serial (sample_world false NoFuel [] [] ProcNotFound None NoFuel [])
       (fun _ _ => None)
       (fun _ _ => Some (LibraryError py"write failed: device disconnected"))
       (fun _ => None))
    1 (Some py"abcdefgh") (Some py"/dev/ttyACM0") []
  = ([connecting (config_with_chunk 5) py"/dev/ttyACM0";
      ESerialOpen py"/dev/ttyACM0" 115200 2; ESleep 2000;
      ESerialWrite (py"abcde" ++ [10]); ESerialClose;
      EPrint py"Serial error: write failed: device disconnected"], Ret tt).
Proof.
  apply (@send_to_esp32_write_fails (config_with_chunk 5)
           (set_serial (sample_world false NoFuel [] [] ProcNotFound None NoFuel [])
              (fun _ _ => None)
              (fun _ _ => Some (LibraryError py"write failed: device disconnected"))
              (fun _ => None))
           0 (Some py"abcdefgh") py"/dev/ttyACM0" [] py"abcde"
           (LibraryError py"write failed: device disconnected")).
  - discriminate.
  - discriminate.
  - reflexivity.
  - reflexivity.
  - reflexivity.
  - reflexivity.
Defined.

(** X6: a text whose first chunk UTF-8 cannot encode (it holds a surrogate
    code point) is not sent at all: the port is opened and closed without
    a write, and the encoding error is reported as a "Serial error". *)
Theorem send_to_esp32_unencodable :
  forall (cfg : Config) (w : World) (fuel : nat) (text : option str)
         (p : str) (t : trace),
    let chunk := firstn (MAX_CHARS_PER_CHUNK cfg) (normalize text) in
    normalize text <> [] ->
    p <> [] ->
    serial_open w (t ++ [connecting cfg p]) p = None ->
    encode_utf8 chunk = None ->
    send_to_esp32 cfg w (S fuel) text (Some p) t
    = (t ++ [connecting cfg p; ESerialOpen p (SERIAL_BAUD cfg) 2; ESleep 2000;
             ESerialClose;
             EPrint (py"Serial error: " ++ encode_error_text w chunk)], Ret tt).
Proof.
  intros cfg w fuel text p t chunk Hne Hp Hopen Henc.
  rewrite (@send_to_esp32_opened cfg w (S fuel) text p t Hne Hp Hopen).
  rewrite (@write_loop_encode_fails cfg w fuel (normalize text) _ Hne Henc).
  cbn [is_Exception exn_text]. rewrite <- app_assoc. reflexivity.
Qed.

Lemma send_to_esp32_unencodable_witness :
  send_to_esp32 config
    (sample_world false NoFuel [] [] ProcNotFound None NoFuel [])
    1 (Some (py"ab" ++ [55357])) (Some py"/dev/ttyACM0") []
  = ([connecting config py"/dev/ttyACM0";
      ESerialOpen py"/dev/ttyACM0" 115200 2; ESleep 2000; ESerialClose;
      EPrint py"Serial error: 'utf-8' codec can't encode character"], Ret tt).
Proof.
  apply (@send_to_esp32_unencodable config
           (sample_world false NoFuel [] [] ProcNotFound None NoFuel [])
           0 (Some (py"ab" ++ [55357])) py"/dev/ttyACM0" []).
  - discriminate.
  - discriminate.
  - reflexivity.
  - reflexivity.
Defined.

(** * Further properties of device resolution *)

Section SortedUnique.

Lemma leb_antisym a : forall b, leb a b = true -> leb b a = true -> a = b.
Proof.
  induction a as [|x a IH]; intros [|y b]; simpl; try easy.
  destruct (N.ltb_spec x y), (N.ltb_spec y x); try easy; try lia.
  intros H1 H2. f_equal; [lia | now apply IH].
Qed.

(** A list has one sorted arrangement only. *)
Lemma sorted_unique l1 :
  forall l2,
    StronglySorted str_le l1 -> StronglySorted str_le l2 ->
    Permutation l1 l2 -> l1 = l2.
Proof.
  induction l1 as [|x l1 IH]; intros l2 H1 H2 Hp.
  - now apply Permutation_nil in Hp.
  - destruct l2 as [|y l2];
      [apply Permutation_sym, Permutation_nil in Hp; discriminate|].
    inversion H1 as [|? ? Hs1 Hx]; subst.
    inversion H2 as [|? ? Hs2 Hy]; subst.
    rewrite Forall_forall in Hx, Hy.
    assert (Exy : x = y).
    { assert (Hin1 : In x (y :: l2))
        by (apply (Permutation_in _ Hp); now left).
      assert (Hin2 : In y (x :: l1))
        by (apply (Permutation_in _ (Permutation_sym Hp)); now left).
      destruct Hin1 as [->|Hin1]; [reflexivity|].
      destruct Hin2 as [->|Hin2]; [reflexivity|].
      apply leb_antisym; [now apply Hx | now apply Hy]. }
    subst y. f_equal. apply IH; try assumption.
    now apply Permutation_cons_inv in Hp.
Qed.

Lemma sorted_permutation l l' : Permutation l l' -> sorted l = sorted l'.
Proof.
  intros Hp. apply sorted_unique; try apply sorted_sorted.
  rewrite <- (sorted_perm l), <- (sorted_perm l'). exact Hp.
Qed.

Lemma find_serial_port_result (w : World) (t : trace) :
  find_serial_port w t
  = (t ++ [EGlob py"/dev/ttyACM*"; EGlob py"/dev/ttyUSB*"],
     Ret (hd_error
            (sorted (glob_result w t py"/dev/ttyACM*"
                     ++ glob_result w (t ++ [EGlob py"/dev/ttyACM*"])
                          py"/dev/ttyUSB*")))).
Proof.
  unfold find_serial_port, glob, bind, call, ret.
  rewrite <- app_assoc. destruct (sorted _); reflexivity.
Qed.

End SortedUnique.

(** X7: device resolution answers [None] exactly when neither pattern
    matches anything. *)
Theorem find_serial_port_none_iff :
  forall (w : World) (t : trace),
    snd (find_serial_port w t) = Ret None
    <-> glob_result w t py"/dev/ttyACM*"
        ++ glob_result w (t ++ [EGlob py"/dev/ttyACM*"]) py"/dev/ttyUSB*" = [].
Proof.
  intros w t. rewrite find_serial_port_result. cbn [snd]. split.
  - intros H. pose proof (sorted_perm (glob_result w t py"/dev/ttyACM*"
        ++ glob_result w (t ++ [EGlob py"/dev/ttyACM*"]) py"/dev/ttyUSB*")) as Hp.
    destruct (sorted _) as [|p l]; [|discriminate].
    now apply Permutation_nil, Permutation_sym.
  - intros ->. reflexivity.
Qed.

(** X8: the chosen port does not depend on the order in which the scans
    list the devices, nor on which scan lists which device: two scans with
    the same matches overall resolve to the same port. *)
Theorem find_serial_port_order_independent :
  forall (w w' : World) (t t' : trace),
    Permutation
      (glob_result w t py"/dev/ttyACM*"
       ++ glob_result w (t ++ [EGlob py"/dev/ttyACM*"]) py"/dev/ttyUSB*")
      (glob_result w' t' py"/dev/ttyACM*"
       ++ glob_result w' (t' ++ [EGlob py"/dev/ttyACM*"]) py"/dev/ttyUSB*") ->
    snd (find_serial_port w t) = snd (find_serial_port w' t').
Proof.
  intros w w' t t' Hp. rewrite !find_serial_port_result. cbn [snd].
  now rewrite (sorted_permutation Hp).
Qed.

Lemma find_serial_port_order_independent_witness :
  snd (find_serial_port
         (sample_world false NoFuel [py"/dev/ttyACM1"; py"/dev/ttyACM0"]
            [py"/dev/ttyUSB0"] ProcNotFound None NoFuel []) [])
  = snd (find_serial_port
           (sample_world false NoFuel [py"/dev/ttyACM0"]
              [py"/dev/ttyUSB0"; py"/dev/ttyACM1"] ProcNotFound None NoFuel [])
           [EPrint []]).
Proof.
  apply (@find_serial_port_order_independent
           (sample_world false NoFuel [py"/dev/ttyACM1"; py"/dev/ttyACM0"]
              [py"/dev/ttyUSB0"] ProcNotFound None NoFuel [])
           (sample_world false NoFuel [py"/dev/ttyACM0"]
              [py"/dev/ttyUSB0"; py"/dev/ttyACM1"] ProcNotFound None NoFuel [])
           [] [EPrint []]).
  change (Permutation
            [py"/dev/ttyACM1"; py"/dev/ttyACM0"; py"/dev/ttyUSB0"]
            [py"/dev/ttyACM0"; py"/dev/ttyUSB0"; py"/dev/ttyACM1"]).
  exact (Permutation_app_comm [py"/dev/ttyACM1"]
           [py"/dev/ttyACM0"; py"/dev/ttyUSB0"]).
Defined.

(** X9: ACM devices take precedence: when the matches carry the prefixes
    of their patterns and at least one ACM device is present, the chosen
    port is an ACM device, however many USB devices there are. *)
Theorem find_serial_port_prefers_acm :
  forall (w : World) (t : trace),
    let acm := glob_result w t py"/dev/ttyACM*" in
    let usb := glob_result w (t ++ [EGlob py"/dev/ttyACM*"]) py"/dev/ttyUSB*" in
    Forall (fun a => exists r, a = py"/dev/ttyACM" ++ r) acm ->
    Forall (fun u => exists r, u = py"/dev/ttyUSB" ++ r) usb ->
    acm <> [] ->
    exists p, snd (find_serial_port w t) = Ret (Some p) /\ In p acm.
Proof.
  intros w t acm usb Hacm Husb Hne.
  rewrite find_serial_port_result. cbn [snd]. fold acm usb.
  destruct (sorted (acm ++ usb)) as [|p l] eqn:E.
  - pose proof (sorted_perm (acm ++ usb)) as Hp. rewrite E in Hp.
    apply Permutation_sym, Permutation_nil, app_eq_nil in Hp.
    destruct Hp as [Hp _]. contradiction.
  - exists p. split; [reflexivity|].
    assert (Hh : hd_error (sorted (acm ++ usb)) = Some p) by now rewrite E.
    destruct (sorted_head_min _ Hh) as [Hin Hmin].
    apply in_app_or in Hin. destruct Hin as [Hin|Hin]; [exact Hin|].
    exfalso. destruct acm as [|a acm']; [congruence|].
    rewrite Forall_forall in Husb. destruct (Husb p Hin) as [r ->].
    inversion Hacm as [|? ? [r' ->] _]; subst.
    specialize (Hmin (py"/dev/ttyACM" ++ r') (or_introl eq_refl)).
    unfold str_le in Hmin. discriminate Hmin.
Qed.

Lemma find_serial_port_prefers_acm_witness :
  exists p,
    snd (find_serial_port
           (sample_world false NoFuel [py"/dev/ttyACM3"]
              [py"/dev/ttyUSB0"; py"/dev/ttyUSB1"] ProcNotFound None NoFuel [])
           [])
    = Ret (Some p)
    /\ In p [py"/dev/ttyACM3"].
Proof.
  apply (@find_serial_port_prefers_acm
           (sample_world false NoFuel [py"/dev/ttyACM3"]
              [py"/dev/ttyUSB0"; py"/dev/ttyUSB1"] ProcNotFound None NoFuel [])
           []).
  - repeat constructor. now exists py"3".
  - repeat constructor; [now exists py"0" | now exists py"1"].
  - discriminate.
Defined.

(** * Further properties of the normalization and of the chunks *)

Section Words.

Lemma split_lstrip s : split (lstrip s) = split s.
Proof.
  unfold split. induction s as [|c s IH]; simpl; [reflexivity|].
  destruct (isspace c) eqn:E; [exact IH|].
  simpl. now rewrite E.
Qed.

Lemma split_from_blank ws :
  Forall (fun c => isspace c = true) ws ->
  forall cur,
    split_from cur ws = match cur with [] => [] | _ => [rev cur] end.
Proof.
  induction 1 as [|c ws Hc _ IH]; intros cur; simpl; [reflexivity|].
  rewrite Hc, (IH []). reflexivity.
Qed.

Lemma split_from_trailing ws s :
  Forall (fun c => isspace c = true) ws ->
  forall cur, split_from cur (s ++ ws) = split_from cur s.
Proof.
  intros Hws. induction s as [|c s IH]; intros cur; simpl.
  - now apply split_from_blank.
  - rewrite !IH. reflexivity.
Qed.

Lemma lstrip_decompose s :
  exists ws, Forall (fun c => isspace c = true) ws /\ s = ws ++ lstrip s.
Proof.
  induction s as [|c s [ws [Hws E]]]; simpl.
  - now exists [].
  - destruct (isspace c) eqn:Ec.
    + exists (c :: ws). split; [now constructor|]. simpl. now f_equal.
    + now exists [].
Qed.

Lemma rstrip_decompose s :
  exists ws, Forall (fun c => isspace c = true) ws /\ s = rstrip s ++ ws.
Proof.
  destruct (lstrip_decompose (rev s)) as [ws [Hws E]].
  exists (rev ws). split.
  - apply Forall_forall. intros c Hc. apply in_rev in Hc.
    rewrite Forall_forall in Hws. auto.
  - unfold rstrip. rewrite <- rev_app_distr, <- E. now rewrite rev_involutive.
Qed.

Lemma split_rstrip s : split (rstrip s) = split s.
Proof.
  destruct (rstrip_decompose s) as [ws [Hws E]].
  rewrite E at 2. unfold split. now rewrite split_from_trailing.
Qed.

Lemma split_strip s : split (strip s) = split s.
Proof. unfold strip. now rewrite split_rstrip, split_lstrip. Qed.

Lemma length_lstrip s : (length (lstrip s) <= length s)%nat.
Proof.
  induction s as [|c s IH]; simpl; [lia|].
  destruct (isspace c); simpl; lia.
Qed.

Lemma length_strip s : (length (strip s) <= length s)%nat.
Proof.
  unfold strip, rstrip. rewrite length_rev.
  pose proof (length_lstrip (rev (lstrip s))) as H1.
  rewrite length_rev in H1. pose proof (length_lstrip s). lia.
Qed.

Lemma length_join_cons (sep u : str) ws :
  length (join sep (u :: ws))
  = (length u
     + match ws with [] => 0 | _ => length sep + length (join sep ws) end)%nat.
Proof.
  destruct ws; simpl; [lia|]. now rewrite !length_app.
Qed.

Lemma length_join_split_from s :
  forall cur,
    (length (join py" " (split_from cur s)) <= length cur + length s)%nat.
Proof.
  induction s as [|c s IH]; intros cur.
  - destruct cur; simpl; [lia|].
    rewrite length_app, length_rev. simpl. lia.
  - cbn [split_from]. destruct (isspace c).
    + specialize (IH []). destruct cur as [|x cur].
      * simpl length in *. lia.
      * rewrite length_join_cons, length_rev.
        destruct (split_from [] s); simpl length in *; lia.
    + specialize (IH (c :: cur)). simpl length in *. lia.
Qed.

Lemma join_words_chars ws :
  Forall word ws ->
  forallb (fun c => negb (isspace c) || (c =? 32)) (join py" " ws) = true.
Proof.
  assert (Hw : forall u, word u ->
            forallb (fun c => negb (isspace c) || (c =? 32)) u = true).
  { intros u [_ Hu]. apply forallb_forall. intros c Hc.
    unfold spaceless in Hu. rewrite Forall_forall in Hu.
    now rewrite (Hu c Hc). }
  induction 1 as [|u ws Hu Hws IH]; [reflexivity|].
  destruct ws as [|v ws]; [now apply Hw|].
  change (join py" " (u :: v :: ws)) with (u ++ 32 :: join py" " (v :: ws)).
  rewrite forallb_app, (Hw u Hu). cbn [forallb]. rewrite IH. reflexivity.
Qed.

Lemma single_spaced_cons a b s :
  single_spaced (a :: b :: s)
  = negb (isspace a && isspace b) && single_spaced (b :: s).
Proof. reflexivity. Qed.

Lemma single_spaced_app u s :
  spaceless u -> single_spaced s = true -> clean_head s ->
  single_spaced (u ++ 32 :: s) = true.
Proof.
  intros Hu Hs Hh. induction Hu as [|c u Hc Hu IH].
  - destruct s as [|x s]; [reflexivity|].
    simpl in Hh. cbn [app]. rewrite single_spaced_cons, Hh, Hs.
    now rewrite andb_false_r.
  - destruct u as [|d u]; cbn [app] in *;
      rewrite single_spaced_cons, Hc; exact IH.
Qed.

Lemma single_spaced_word u : spaceless u -> single_spaced u = true.
Proof.
  induction 1 as [|c u Hc Hu IH]; [reflexivity|].
  destruct u as [|d u]; [reflexivity|].
  rewrite single_spaced_cons, Hc. exact IH.
Qed.

Lemma join_single_spaced ws :
  Forall word ws -> single_spaced (join py" " ws) = true.
Proof.
  induction 1 as [|u ws Hu Hws IH]; [reflexivity|].
  destruct ws as [|v ws]; [apply single_spaced_word, Hu|].
  change (join py" " (u :: v :: ws)) with (u ++ 32 :: join py" " (v :: ws)).
  apply single_spaced_app; [apply Hu | exact IH | now apply join_clean_head].
Qed.

Lemma split_from_gap g :
  blank g -> forall s, split_from [] (g ++ s) = split_from [] s.
Proof.
  induction 1 as [|c g Hc _ IH]; intros s; [reflexivity|].
  cbn [app split_from]. rewrite Hc. apply IH.
Qed.

Lemma split_from_word_gap (u g : str) :
  word u -> blank g -> g <> [] ->
  forall s, split_from (rev u) (g ++ s) = u :: split_from [] s.
Proof.
  intros [Hne _] Hg Hg0 s. destruct Hg as [|c g Hc Hg]; [congruence|].
  cbn [app split_from]. rewrite Hc, (split_from_gap Hg).
  destruct (rev u) eqn:E.
  - apply (f_equal (@length _)) in E. rewrite length_rev in E.
    destruct u; [congruence|discriminate].
  - now rewrite <- E, rev_involutive.
Qed.

Lemma split_from_spaced (pairs : list (str * str)) (trail : str) :
  Forall (fun gu => blank (fst gu) /\ word (snd gu) /\ fst gu <> []) pairs ->
  blank trail ->
  forall u, word u ->
    split_from (rev u) (spaced pairs ++ trail) = u :: map snd pairs.
Proof.
  intros Hp Htrail. induction Hp as [|[g v] ps [Hg [Hv Hg0]] _ IH]; intros u Hu.
  - cbn [spaced app map]. rewrite (split_from_blank Htrail).
    destruct (rev u) eqn:E.
    + apply (f_equal (@length _)) in E. rewrite length_rev in E.
      destruct Hu as [Hne _]. destruct u; [congruence|discriminate].
    + now rewrite <- E, rev_involutive.
  - cbn [fst snd] in *. cbn [spaced map snd]. rewrite <- !app_assoc.
    rewrite (split_from_word_gap Hu Hg Hg0).
    rewrite (split_from_spaceless (proj2 Hv)), app_nil_r.
    now rewrite (IH v Hv).
Qed.

Lemma split_spaced (pairs : list (str * str)) (trail : str) :
  Forall (fun gu => blank (fst gu) /\ word (snd gu)) pairs ->
  Forall (fun gu => fst gu <> []) (tl pairs) ->
  blank trail ->
  split (spaced pairs ++ trail) = map snd pairs.
Proof.
  intros Hp Hgaps Htrail. unfold split.
  destruct pairs as [|[g u] ps].
  - cbn [spaced app map]. now rewrite (split_from_blank Htrail).
  - inversion Hp as [|? ? [Hg Hu] Hps]; subst. cbn [fst snd tl] in *.
    cbn [spaced map snd]. rewrite <- !app_assoc.
    rewrite (split_from_gap Hg), (split_from_spaceless (proj2 Hu)), app_nil_r.
    apply split_from_spaced; [|exact Htrail|exact Hu].
    rewrite Forall_forall in *. intros gu Hin.
    destruct (Hps gu Hin) as [H1 H2].
    split; [exact H1|split; [exact H2|exact (Hgaps gu Hin)]].
Qed.

Lemma length_normalize (text : option str) :
  (length (normalize text)
   <= length (match text with Some s => s | None => [] end))%nat.
Proof.
  unfold normalize, collapse_ws, split.
  eapply Nat.le_trans; [|apply length_strip].
  exact (length_join_split_from _ []).
Qed.

End Words.

(** C6: whitespace normalization collapses every run of whitespace to a
    single space: a text made of words separated by runs of whitespace
    (with whitespace before the first and after the last word, if any)
    becomes these words joined by single spaces; for every text the words
    are kept, the only whitespace left is the space U+0020 and no two
    spaces are adjacent.  The text "hello   world\n\nfoo" becomes exactly
    "hello world foo". *)
Theorem normalize_collapses_whitespace_runs :
  forall (pairs : list (str * str)) (trail : str),
    Forall (fun gu => blank (fst gu) /\ word (snd gu)) pairs ->
    Forall (fun gu => fst gu <> []) (tl pairs) ->
    blank trail ->
    collapse_ws (spaced pairs ++ trail) = join py" " (map snd pairs)
    /\ normalize (Some (spaced pairs ++ trail)) = join py" " (map snd pairs)
    /\ (forall text : str,
          split (collapse_ws text) = split text
          /\ forallb (fun c => negb (isspace c) || (c =? 32)) (collapse_ws text)
             = true
          /\ single_spaced (collapse_ws text) = true)
    /\ collapse_ws (py"hello   world" ++ [10; 10] ++ py"foo")
       = py"hello world foo"
    /\ normalize (Some (py"hello   world" ++ [10; 10] ++ py"foo"))
       = py"hello world foo"
    /\ collapse_ws ([9] ++ py"a" ++ [9; 32; 160; 8195] ++ py"b" ++ [13; 10])
       = py"a b".
Proof.
  intros pairs trail Hp Hgaps Htrail.
  pose proof (@split_spaced pairs trail Hp Hgaps Htrail) as Hsplit.
  split; [unfold collapse_ws; now rewrite Hsplit|].
  split; [unfold normalize, collapse_ws; now rewrite split_strip, Hsplit|].
  split; [|repeat split; reflexivity].
  intros text. unfold collapse_ws. split; [|split].
  - apply split_join, split_words.
  - apply join_words_chars, split_words.
  - apply join_single_spaced, split_words.
Qed.

Lemma normalize_collapses_whitespace_runs_witness :
  collapse_ws (spaced [([], py"hello"); (py"   ", py"world"); ([10; 10], py"foo")]
               ++ [])
  = join py" " (map snd [([], py"hello"); (py"   ", py"world"); ([10; 10], py"foo")])
  /\ spaced [([], py"hello"); (py"   ", py"world"); ([10; 10], py"foo")] ++ []
     = py"hello   world" ++ [10; 10] ++ py"foo"
  /\ join py" " (map snd [([], py"hello"); (py"   ", py"world"); ([10; 10], py"foo")])
     = py"hello world foo".
Proof.
  split; [|split; reflexivity].
  apply (@normalize_collapses_whitespace_runs
           [([], py"hello"); (py"   ", py"world"); ([10; 10], py"foo")] []).
  - repeat constructor; discriminate.
  - repeat constructor; discriminate.
  - constructor.
Defined.

(** X10: normalization keeps the words: splitting the normalized payload
    gives the same words, in the same order, as splitting the text. *)
Theorem normalize_keeps_words :
  forall text : option str,
    split (normalize text)
    = split (match text with Some s => s | None => [] end).
Proof.
  intros text. unfold normalize, collapse_ws.
  rewrite split_join by apply split_words. apply split_strip.
Qed.

(** X11: normalization never makes the text longer. *)
Theorem normalize_not_longer :
  forall text : option str,
    (length (normalize text)
     <= length (match text with Some s => s | None => [] end))%nat.
Proof. exact length_normalize. Qed.

(** X12: in the normalized payload the only whitespace character is the
    space U+0020 (tabs, newlines and the like are gone) and no two spaces
    are adjacent. *)
Theorem normalize_single_spaces :
  forall text : option str,
    forallb (fun c => negb (isspace c) || (c =? 32)) (normalize text) = true
    /\ single_spaced (normalize text) = true.
Proof.
  intros text. unfold normalize, collapse_ws. split.
  - apply join_words_chars, split_words.
  - apply join_single_spaced, split_words.
Qed.

Section Lines.

Lemma high_byte (a x : N) : 128 <= a -> a + x < 128 -> False.
Proof. lia. Qed.

Lemma encode_char_low c bs b :
  encode_char c = Some bs -> In b bs -> b < 128 -> b = c.
Proof.
  unfold encode_char.
  destruct (c <? 128);
    [intros E Hin _; apply some_eq in E; subst bs;
     destruct Hin as [<-|[]]; reflexivity|].
  destruct (c <? 2048); [|destruct ((55296 <=? c) && (c <=? 57343));
                           [discriminate|destruct (c <? 65536)]];
    intros E Hin Hb; apply some_eq in E; subst bs; exfalso; cbn [In] in Hin;
    repeat (destruct Hin as [<-|Hin];
            [revert Hb; apply high_byte; lia|]);
    exact Hin.
Qed.

Lemma encode_utf8_low s :
  forall d b, encode_utf8 s = Some d -> In b d -> b < 128 -> In b s.
Proof.
  induction s as [|c s IH]; intros d b; simpl.
  - intros [= <-] [].
  - destruct (encode_char c) as [bs|] eqn:Ec; [|discriminate].
    destruct (encode_utf8 s) as [ds|]; [|discriminate].
    intros E Hin Hlow. apply some_eq in E. subst d.
    apply in_app_or in Hin. destruct Hin as [Hin|Hin].
    + left. symmetry. exact (@encode_char_low c bs b Ec Hin Hlow).
    + right. exact (IH ds b eq_refl Hin Hlow).
Qed.

Variable cfg : Config.
Variable w : World.

(** In any world, every write of the loop on a payload without newline
    characters is one line. *)
Lemma write_loop_lines fuel :
  forall (payload : str) (t : trace),
    ~ In 10 payload ->
    exists mid o,
      write_loop cfg w fuel payload t = (t ++ mid, o) /\ Forall one_line mid.
Proof.
  induction fuel as [|fuel IH]; intros payload t Hnl.
  - exists []. rewrite app_nil_r.
    destruct payload; eexists; (split; [reflexivity|constructor]).
  - destruct payload as [|c p].
    + exists [], (Ret tt). rewrite app_nil_r. split; [reflexivity|constructor].
    + cbn [write_loop]. unfold slice_to, slice_from, encode.
      destruct (encode_utf8 _) as [d|] eqn:Ed.
      * assert (Hd : ~ In 10 d).
        { intros Hin. apply Hnl.
          apply (@encode_utf8_low _ d 10 Ed) in Hin; [|reflexivity].
          rewrite <- (firstn_skipn (MAX_CHARS_PER_CHUNK cfg) (c :: p)).
          apply in_or_app. now left. }
        assert (Hline : one_line (ESerialWrite (d ++ [10])))
          by (exists d; split; [reflexivity|exact Hd]).
        unfold sleep, emit, bind at 1 2 3, call, ret, may_raise.
        destruct (serial_write w t (d ++ [10])) as [e|].
        { exists [ESerialWrite (d ++ [10])], (Raise e). split; [reflexivity|].
          repeat constructor. exact Hline. }
        destruct (serial_flush w _) as [e|].
        { exists [ESerialWrite (d ++ [10]); ESerialFlush], (Raise e).
          rewrite <- app_assoc. split; [reflexivity|].
          repeat constructor. exact Hline. }
        unfold bind.
        assert (Hrest : ~ In 10 (skipn (MAX_CHARS_PER_CHUNK cfg) (c :: p))).
        { intros Hin. apply Hnl.
          rewrite <- (firstn_skipn (MAX_CHARS_PER_CHUNK cfg) (c :: p)).
          apply in_or_app. now right. }
        destruct (IH _ (((t ++ [ESerialWrite (d ++ [10])]) ++ [ESerialFlush])
                          ++ [ESleep 150]) Hrest) as [mid [o [Hrun Hmid]]].
        rewrite Hrun.
        exists (sent d ++ mid), o. unfold sent. rewrite <- !app_assoc.
        split; [reflexivity|]. repeat constructor; assumption.
      * eexists [], _. rewrite app_nil_r. split; [reflexivity|constructor].
Qed.

Lemma normalize_no_newline text : ~ In 10 (normalize text).
Proof.
  intros Hin.
  pose proof (join_words_chars
                (split_words (strip match text with Some s => s | None => [] end)))
    as H.
  rewrite forallb_forall in H. specialize (H 10 Hin). discriminate H.
Qed.

End Lines.

(** X13: the framing is unambiguous: whatever the device does, every
    write of the chunk loop on a normalized payload is one line: bytes
    that contain no newline byte, followed by exactly one newline byte. *)
Theorem write_loop_sends_lines :
  forall (cfg : Config) (w : World) (fuel : nat) (text : option str) (t : trace),
    exists mid,
      fst (write_loop cfg w fuel (normalize text) t) = t ++ mid
      /\ Forall one_line mid.
Proof.
  intros cfg w fuel text t.
  destruct (@write_loop_lines cfg w fuel (normalize text) t
              (normalize_no_newline text)) as [mid [o [Hrun Hmid]]].
  exists mid. rewrite Hrun. split; [reflexivity|exact Hmid].
Qed.

Section ChunkCount.

Lemma ceil_step (n L : nat) :
  (0 < n)%nat -> (0 < L)%nat ->
  ((L + n - 1) / n = S ((L - n + n - 1) / n))%nat.
Proof.
  intros Hn HL. destruct (le_lt_dec L n) as [Hle|Hlt].
  - replace (L - n + n - 1)%nat with (n - 1)%nat by lia.
    rewrite (Nat.div_small (n - 1)) by lia.
    replace (L + n - 1)%nat with ((L - 1) + 1 * n)%nat by lia.
    rewrite Nat.div_add by lia. rewrite Nat.div_small by lia. lia.
  - replace (L + n - 1)%nat with ((L - n + n - 1) + 1 * n)%nat by lia.
    rewrite Nat.div_add by lia. lia.
Qed.

Lemma chunk_loop_length (n : nat) (Hn : (0 < n)%nat) fuel :
  forall payload : str,
    (length payload <= fuel)%nat ->
    exists cs,
      chunk_loop n fuel payload = Some cs
      /\ length cs = ((length payload + n - 1) / n)%nat.
Proof.
  induction fuel as [|fuel IH]; intros payload Hlen.
  - destruct payload; [|simpl in Hlen; lia].
    exists []. split; [reflexivity|].
    simpl length. rewrite Nat.div_small by lia. reflexivity.
  - destruct payload as [|c p].
    + exists []. split; [reflexivity|].
      simpl length. rewrite Nat.div_small by lia. reflexivity.
    + assert (Hrest : (length (skipn n (c :: p)) <= fuel)%nat).
      { rewrite length_skipn. simpl length in *. lia. }
      destruct (IH _ Hrest) as [cs [Hrun Hcount]].
      exists (firstn n (c :: p) :: cs).
      cbn [chunk_loop]. unfold slice_to, slice_from. rewrite Hrun.
      split; [reflexivity|].
      rewrite length_skipn in Hcount. cbn [length] in *.
      rewrite Hcount. symmetry. apply ceil_step; lia.
Qed.

End ChunkCount.

(** X14: a payload of L characters is cut into ceil(L / n) chunks, n
    being the maximal chunk size (120 in the source): that many lines are
    written for it, and none for an empty payload. *)
Theorem chunk_loop_count :
  forall (cfg : Config) (fuel : nat) (payload : str),
    (0 < MAX_CHARS_PER_CHUNK cfg)%nat ->
    (length payload <= fuel)%nat ->
    exists cs,
      chunk_loop (MAX_CHARS_PER_CHUNK cfg) fuel payload = Some cs
      /\ length cs
         = ((length payload + MAX_CHARS_PER_CHUNK cfg - 1)
            / MAX_CHARS_PER_CHUNK cfg)%nat.
Proof.
  intros cfg fuel payload Hpos Hfuel.
  now apply chunk_loop_length.
Qed.

Lemma chunk_loop_count_witness :
  exists cs,
    chunk_loop (MAX_CHARS_PER_CHUNK (config_with_chunk 5)) 8 py"abcdefgh"
    = Some cs
    /\ length cs = ((8 + 5 - 1) / 5)%nat.
Proof.
  apply (@chunk_loop_count (config_with_chunk 5) 8 py"abcdefgh").
  - simpl. lia.
  - simpl. lia.
Defined.

(** * Further properties of capture *)

Section Camera.

Variable cfg : Config.
Variable w : World.

Lemma preview_loop_events fuel :
  forall t,
    exists mid o,
      preview_loop cfg w fuel t = (t ++ mid, o)
      /\ forallb preview_event mid = true.
Proof.
  induction fuel as [|fuel IH]; intros t.
  - exists [], NoFuel. rewrite app_nil_r. split; reflexivity.
  - cbn [preview_loop]. unfold print, emit, raise.
    unfold bind at 1 2 3, call, ret, may_raise.
    destruct (picam_capture w t) as [img|e|].
    + destruct (imshow_result w _) as [e|].
      * exists [EPicamCapture; EImshow py"Camera (press c to capture)"], (Raise e).
        rewrite <- app_assoc. split; reflexivity.
      * destruct (Z.land (wait_key w _) 255 =? 99)%Z.
        { eexists [_; _; _], _. rewrite <- !app_assoc. split; reflexivity. }
        destruct (Z.land (wait_key w _) 255 =? 113)%Z.
        { unfold bind, call. eexists [_; _; _; _], _.
          rewrite <- !app_assoc. split; reflexivity. }
        unfold bind at 1, call.
        destruct (elapsed_ms w _ >=? 1000 * CAPTURE_TIMEOUT_SEC cfg)%Z.
        { unfold bind, call. eexists [_; _; _; _; _], _.
          rewrite <- !app_assoc. split; reflexivity. }
        destruct (IH ((((t ++ [EPicamCapture])
                          ++ [EImshow py"Camera (press c to capture)"])
                         ++ [EWaitKey 1]) ++ [EClock]))
          as [mid [o [Hrun Hmid]]].
        rewrite Hrun.
        exists ([EPicamCapture; EImshow py"Camera (press c to capture)";
                 EWaitKey 1; EClock] ++ mid), o.
        rewrite <- !app_assoc. split; [reflexivity|exact Hmid].
    + exists [EPicamCapture], (Raise e). split; reflexivity.
    + exists [EPicamCapture], NoFuel. split; reflexivity.
Qed.

(** The primary backend after a successful start: frames are captured and
    shown, then the camera is stopped, whatever ends the capture. *)
Lemma capture_with_picamera2_started fuel t t' o :
  PICAMERA2_OK w = true ->
  picam_start w t = None ->
  capture_with_picamera2 cfg w fuel t = (t', o) ->
  o <> NoFuel ->
  exists mid,
    t' = t ++ camera_started cfg ++ mid ++ [EPicamStop]
    /\ forallb preview_event mid = true.
Proof.
  intros Hok Hstart Hrun Ho. revert Hrun.
  unfold capture_with_picamera2. rewrite Hok. cbn [negb].
  unfold try_finally, print, sleep, emit, raise.
  unfold bind at 1 2 3 4, call, ret, may_raise. rewrite Hstart.
  destruct SHOW_PREVIEW.
  - unfold bind.
    destruct (preview_loop_events fuel
                (((t ++ [EPicamStart (RESOLUTION cfg)]) ++ [ESleep 500])
                   ++ [EPrint (py"Press 'c' to capture, 'q' to quit. (Auto-captures in "
                               ++ str_of_N (Z.to_N (CAPTURE_TIMEOUT_SEC cfg))
                               ++ py" sec)")]))
      as [mid [o' [Hloop Hmid]]].
    rewrite Hloop. unfold call.
    destruct o' as [frame|e|].
    + destruct (picam_stop w _) as [e|].
      * intros [= <- <-]. exists (mid ++ [EDestroyAllWindows]).
        unfold camera_started. rewrite <- !app_assoc. split; [reflexivity|].
        rewrite forallb_app, Hmid. reflexivity.
      * destruct frame; intros [= <- <-];
          exists (mid ++ [EDestroyAllWindows]);
          unfold camera_started; rewrite <- !app_assoc;
          (split; [reflexivity|]); rewrite forallb_app, Hmid; reflexivity.
    + destruct (picam_stop w _) as [e'|]; intros [= <- <-];
        exists mid; unfold camera_started; rewrite <- !app_assoc;
        (split; [reflexivity|exact Hmid]).
    + intros [= <- <-]. congruence.
  - unfold bind, call.
    destruct (picam_capture w _) as [img|e|].
    + destruct (picam_stop w _) as [e|]; intros [= <- <-];
        exists [EPicamCapture]; unfold camera_started;
        rewrite <- !app_assoc; split; reflexivity.
    + destruct (picam_stop w _) as [e'|]; intros [= <- <-];
        exists [EPicamCapture]; unfold camera_started;
        rewrite <- !app_assoc; split; reflexivity.
    + intros [= <- <-]. congruence.
Qed.

End Camera.

(** X15: once the camera has been started it is stopped again before
    [capture_with_picamera2] is left, whether a frame is returned, an
    error is raised or the operator quits: between the start-up and the
    final stop there are only captures, preview-window events and
    prints. *)
Theorem capture_with_picamera2_stops_camera :
  forall (cfg : Config) (w : World) (fuel : nat) (t t' : trace)
         (o : outcome raster),
    PICAMERA2_OK w = true ->
    picam_start w t = None ->
    capture_with_picamera2 cfg w fuel t = (t', o) ->
    o <> NoFuel ->
    exists mid,
      t' = t ++ camera_started cfg ++ mid ++ [EPicamStop]
      /\ forallb preview_event mid = true.
Proof.
  intros cfg w fuel t t' o. apply capture_with_picamera2_started.
Qed.

Lemma capture_with_picamera2_stops_camera_witness :
  exists mid,
    [EPicamStart (640, 480); ESleep 500;
     EPrint py"Press 'c' to capture, 'q' to quit. (Auto-captures in 6 sec)";
     EPicamCapture; EImshow py"Camera (press c to capture)"; EWaitKey 1;
     EDestroyAllWindows; EPicamStop]
    = [] ++ camera_started config ++ mid ++ [EPicamStop]
    /\ forallb preview_event mid = true.
Proof.
  apply (@capture_with_picamera2_stops_camera config
           (set_preview
              (sample_world true (Ret sample_frame) [] [] ProcNotFound None
                 NoFuel [])
              (Some py":0") (fun _ => 113%Z) (fun _ => 0%Z))
           1 [] _ (Raise (SystemExit 0))).
  - reflexivity.
  - reflexivity.
  - reflexivity.
  - discriminate.
Defined.

(** X16: quitting is not a capture failure: when the primary backend is
    left by [SystemExit] (the quit key of the preview), the fallback is not
    tried, nothing is saved or recognized, and the process ends with the
    exit code of the [SystemExit]. *)
Theorem quit_skips_fallback :
  forall (cfg : Config) (w : World) (fuel : nat) (t1 : trace) (code : Z),
    let t0 := [EPrint (py"[OK] Starting capture" ++ ellipsis)] in
    PICAMERA2_OK w = true ->
    capture_with_picamera2 cfg w fuel t0 = (t1, Raise (SystemExit code)) ->
    capture_frame cfg w fuel t0 = (t1, Raise (SystemExit code))
    /\ main cfg w fuel [] = (t1, Raise (SystemExit code))
    /\ exit_status (snd (main cfg w fuel [])) = Some code.
Proof.
  intros cfg w fuel t1 code t0 Hok Hcam.
  assert (Hcf : capture_frame cfg w fuel t0 = (t1, Raise (SystemExit code))).
  { unfold capture_frame. rewrite Hok, Hcam. reflexivity. }
  pose proof (main_capture_fatal cfg w fuel Hcf) as Hmain.
  rewrite Hmain. repeat split; assumption.
Qed.

Lemma quit_skips_fallback_witness :
  main config
    (set_preview
       (sample_world true (Ret sample_frame) [] [] ProcNotFound None NoFuel [])
       (Some py":0") (fun _ => 113%Z) (fun _ => 0%Z))
    1 []
  = ([EPrint (py"[OK] Starting capture" ++ ellipsis);
      EPicamStart (640, 480); ESleep 500;
      EPrint py"Press 'c' to capture, 'q' to quit. (Auto-captures in 6 sec)";
      EPicamCapture; EImshow py"Camera (press c to capture)"; EWaitKey 1;
      EDestroyAllWindows; EPicamStop],
     Raise (SystemExit 0)).
Proof.
  apply (@quit_skips_fallback config
           (set_preview
              (sample_world true (Ret sample_frame) [] [] ProcNotFound None
                 NoFuel [])
              (Some py":0") (fun _ => 113%Z) (fun _ => 0%Z))
           1 _ 0%Z).
  - reflexivity.
  - reflexivity.
Defined.

(** X17: the fallback returns a frame exactly when [rpicam-still] exits
    with status 0 and the file it wrote can be read; the frame is then the
    content of that file, and the run of the tool and the read of the file
    are its only events. *)
Theorem capture_with_rpicam_succeeds_iff :
  forall (cfg : Config) (w : World) (t : trace) (img : raster),
    ((exists t', capture_with_rpicam cfg w t = (t', Ret img))
     <-> (exists stderr, proc_run w t (rpicam_cmd cfg) = ProcExit 0 stderr)
         /\ imread_result w (t ++ [ERun (rpicam_cmd cfg)]) py"capture_rpicam.jpg"
            = Some img)
    /\ (capture_with_rpicam cfg w t
        = (t ++ [ERun (rpicam_cmd cfg); EImread py"capture_rpicam.jpg"], Ret img)
        <-> (exists stderr, proc_run w t (rpicam_cmd cfg) = ProcExit 0 stderr)
            /\ imread_result w (t ++ [ERun (rpicam_cmd cfg)])
                 py"capture_rpicam.jpg"
               = Some img).
Proof.
  intros cfg w t img.
  unfold capture_with_rpicam, subprocess_run, bind, call, ret, raise.
  destruct (proc_run w t (rpicam_cmd cfg)) as [|status stderr|e].
  - split; split.
    + intros [t' H]. discriminate H.
    + intros [[? H] _]. discriminate H.
    + intros H. discriminate H.
    + intros [[? H] _]. discriminate H.
  - destruct (Z.eqb_spec status 0) as [->|Hs].
    + destruct (imread_result w _ _) as [img'|].
      * rewrite <- app_assoc. split; split.
        -- intros [t' H]. apply (f_equal snd) in H. cbn [snd] in H.
           apply some_ret in H. subst img'. split; [now exists stderr|reflexivity].
        -- intros [_ H]. apply some_eq in H. subst img'. eexists. reflexivity.
        -- intros H. apply (f_equal snd) in H. cbn [snd] in H.
           apply some_ret in H. subst img'. split; [now exists stderr|reflexivity].
        -- intros [_ H]. apply some_eq in H. subst img'. reflexivity.
      * split; split.
        -- intros [t' H]. discriminate H.
        -- intros [_ H]. discriminate H.
        -- intros H. discriminate H.
        -- intros [_ H]. discriminate H.
    + split; split.
      * intros [t' H]. discriminate H.
      * intros [[? H] _]. exfalso. apply Hs. congruence.
      * intros H. discriminate H.
      * intros [[? H] _]. exfalso. apply Hs. congruence.
  - split; split.
    + intros [t' H]. destruct e; discriminate H.
    + intros [[? H] _]. discriminate H.
    + intros H. destruct e; discriminate H.
    + intros [[? H] _]. discriminate H.
Qed.

(** * Further properties of the pipeline *)

Section Pipeline.

Variable cfg : Config.
Variable w : World.

(** [main] from the recognized text on. *)
Lemma main_from_text fuel (t1 : trace) (frame : raster) (proc : gray_image)
    (t2 : trace) (text : str) :
  capture_frame cfg w fuel [EPrint (py"[OK] Starting capture" ++ ellipsis)]
  = (t1, Ret frame) ->
  preprocess_for_ocr w frame = Ret proc ->
  ocr_image cfg w proc (t1 ++ saved_events frame proc) = (t2, Ret text) ->
  main cfg w fuel []
  = match stdin_line w (t2 ++ result_events text) with
    | Ret line =>
        if str_eqb (lower (strip line)) py"y"
        then
          match send_to_esp32 cfg w fuel (Some text) None
                  (t2 ++ result_events text
                      ++ [prompt; EPrint (py"[OK] Sending to ESP32" ++ ellipsis)])
          with
          | (t3, Ret _) => (t3 ++ [EPrint py"[OK] Send complete"], Ret tt)
          | (t3, Raise e) => (t3, Raise e)
          | (t3, NoFuel) => (t3, NoFuel)
          end
        else (t2 ++ result_events text ++ [prompt; EPrint py"Skipped sending."],
              Ret tt)
    | Raise e => (t2 ++ result_events text ++ [prompt], Raise e)
    | NoFuel => (t2 ++ result_events text ++ [prompt], NoFuel)
    end.
Proof.
  intros Hcap Hpre Hocr. unfold main.
  erewrite bind_ret by reflexivity.
  erewrite bind_ret by exact Hcap.
  rewrite (@main_saves_images w t1 frame proc _ Hpre).
  erewrite bind_ret by exact Hocr.
  unfold checkpoint, print, emit, call.
  unfold bind at 1 2 3 4 5, ret. rewrite <- !app_assoc. cbn [app].
  unfold result_events, prompt. cbn [app].
  destruct (stdin_line w _) as [line| |]; try reflexivity.
  destruct (str_eqb (lower (strip line)) py"y").
  - unfold bind. rewrite <- ?app_assoc. cbn [app].
    destruct (send_to_esp32 cfg w fuel (Some text) None _) as [t3 [[]| |]];
      reflexivity.
  - rewrite <- ?app_assoc. reflexivity.
Qed.

(** Under [no_interrupts] the loop raises instances of [Exception] only. *)
Lemma write_loop_raises_exceptions fuel :
  no_interrupts w ->
  forall (payload : str) (t t' : trace) (e : exn),
    write_loop cfg w fuel payload t = (t', Raise e) -> is_Exception e = true.
Proof.
  intros [_ [_ [_ [Hw Hf]]]].
  induction fuel as [|fuel IH]; intros payload t t' e.
  - destruct payload; discriminate.
  - destruct payload as [|c p]; [discriminate|].
    cbn [write_loop]. unfold slice_to, slice_from, encode.
    destruct (encode_utf8 _) as [d|]; [|intros [= _ <-]; reflexivity].
    unfold sleep, emit, bind at 1 2 3, call, ret, may_raise.
    destruct (serial_write w t (d ++ [10])) as [e'|] eqn:Ew.
    { intros [= _ <-]. exact (Hw _ _ _ Ew). }
    destruct (serial_flush w _) as [e'|] eqn:Ef.
    { intros [= _ <-]. exact (Hf _ _ Ef). }
    unfold bind. apply IH.
Qed.

End Pipeline.

Section Survival.

Variable cfg : Config.
Variable w : World.
Hypothesis max_pos : (0 < MAX_CHARS_PER_CHUNK cfg)%nat.
Hypothesis quiet : no_interrupts w.

Lemma send_to_esp32_returns fuel (text port : option str) (t : trace) :
  (length (normalize text) <= fuel)%nat ->
  exists mid, send_to_esp32 cfg w fuel text port t = (t ++ mid, Ret tt).
Proof.
  intros Hfuel.
  assert (Hexplicit : forall (p : str) (t0 : trace), normalize text <> [] ->
            exists mid,
              send_to_esp32 cfg w fuel text (Some p) t0 = (t0 ++ mid, Ret tt)).
  { intros p t0 Hne. destruct p as [|c p].
    - rewrite normalize_empty_iff in Hne. unfold send_to_esp32.
      destruct (strip _); [congruence|]. eexists. reflexivity.
    - assert (Hp : c :: p <> []) by discriminate.
      destruct (serial_open w (t0 ++ [connecting cfg (c :: p)]) (c :: p))
        as [e|] eqn:Eo.
      + rewrite (@send_to_esp32_open_raises cfg w fuel text (c :: p) t0 e
                   Hne Hp Eo).
        destruct quiet as [_ [_ [Ho _]]]. rewrite (Ho _ _ _ Eo).
        eexists. reflexivity.
      + rewrite (@send_to_esp32_opened cfg w fuel text (c :: p) t0 Hne Hp Eo).
        destruct (@write_loop_events cfg w max_pos fuel (normalize text)
                    (t0 ++ [connecting cfg (c :: p);
                            ESerialOpen (c :: p) (SERIAL_BAUD cfg) 2;
                            ESleep 2000]) Hfuel)
          as [mid [o [Hrun [_ Ho]]]].
        rewrite Hrun. destruct o as [[]|e|]; [| |congruence].
        * rewrite <- !app_assoc. eexists. reflexivity.
        * rewrite (@write_loop_raises_exceptions cfg w fuel quiet
                     (normalize text) _ _ e Hrun).
          rewrite <- !app_assoc. eexists. reflexivity. }
  destruct (normalize text) as [|c r] eqn:En.
  - apply normalize_empty_iff in En. unfold send_to_esp32. rewrite En.
    eexists. reflexivity.
  - assert (Hne : normalize text <> []) by (rewrite En; discriminate).
    rewrite <- En in Hexplicit.
    destruct port as [p|]; [now apply Hexplicit|].
    rewrite (@send_to_esp32_scanned cfg w fuel text t Hne).
    destruct (sorted _) as [|p l]; [eexists; reflexivity|].
    destruct (Hexplicit p (t ++ [EGlob py"/dev/ttyACM*"; EGlob py"/dev/ttyUSB*"])
                Hne) as [mid ->].
    rewrite <- app_assoc. eexists. reflexivity.
Qed.

Lemma ocr_image_returns (img : gray_image) (t : trace) :
  exists t' text,
    ocr_image cfg w img t = (t', Ret text)
    /\ (text = [] \/ ocr_engine w t img = Ret text).
Proof.
  destruct quiet as [Hend [Hexn _]].
  unfold ocr_image, try_except, call, print, emit, bind, call, ret.
  destruct (ocr_engine w t img) as [s|e|] eqn:E.
  - eexists; eexists. split; [reflexivity|now right].
  - rewrite (Hexn _ _ _ E). eexists; eexists. split; [reflexivity|now left].
  - now elim (Hend t img).
Qed.

End Survival.

(** X18: nothing is sent without the operator's consent: when the answer
    to the prompt, stripped and lowered, is not "y", [main] prints
    "Skipped sending." and returns; no scan, no serial port. *)
Theorem main_declined :
  forall (cfg : Config) (w : World) (fuel : nat) (t1 t2 : trace)
         (frame : raster) (proc : gray_image) (text line : str),
    capture_frame cfg w fuel [EPrint (py"[OK] Starting capture" ++ ellipsis)]
    = (t1, Ret frame) ->
    preprocess_for_ocr w frame = Ret proc ->
    ocr_image cfg w proc (t1 ++ saved_events frame proc) = (t2, Ret text) ->
    stdin_line w (t2 ++ result_events text) = Ret line ->
    str_eqb (lower (strip line)) py"y" = false ->
    main cfg w fuel []
    = (t2 ++ result_events text ++ [prompt; EPrint py"Skipped sending."],
       Ret tt)
    /\ forallb (fun e => negb (serial_event e))
         (result_events text ++ [prompt; EPrint py"Skipped sending."]) = true.
Proof.
  intros cfg w fuel t1 t2 frame proc text line Hcap Hpre Hocr Hin Hno.
  rewrite (main_from_text cfg w fuel Hcap Hpre Hocr), Hin, Hno.
  split; reflexivity.
Qed.

Lemma main_declined_witness :
  main config
    (sample_world false NoFuel [py"/dev/ttyACM0"] [] (ProcExit 0 [])
       (Some sample_frame) (Ret py"hello") py"yes")
    0 []
  = ([EPrint (py"[OK] Starting capture" ++ ellipsis);
      ERun (rpicam_cmd config); EImread py"capture_rpicam.jpg";
      EImwriteColor py"capture_raw.jpg" sample_frame;
      EPrint py"[OK] Saved capture_raw.jpg";
      EImwriteGray py"capture_proc.jpg" [[0; 255]; [0; 255]]%Z;
      EPrint py"[OK] Saved capture_proc.jpg";
      EOcr [[0; 255]; [0; 255]]%Z py"eng" py"--oem 3 --psm 6"]
       ++ result_events py"hello"
       ++ [prompt; EPrint py"Skipped sending."],
     Ret tt).
Proof.
  refine (proj1 (@main_declined config
           (sample_world false NoFuel [py"/dev/ttyACM0"] [] (ProcExit 0 [])
              (Some sample_frame) (Ret py"hello") py"yes")
           0
           [EPrint (py"[OK] Starting capture" ++ ellipsis);
            ERun (rpicam_cmd config); EImread py"capture_rpicam.jpg"]
           [EPrint (py"[OK] Starting capture" ++ ellipsis);
            ERun (rpicam_cmd config); EImread py"capture_rpicam.jpg";
            EImwriteColor py"capture_raw.jpg" sample_frame;
            EPrint py"[OK] Saved capture_raw.jpg";
            EImwriteGray py"capture_proc.jpg" [[0; 255]; [0; 255]]%Z;
            EPrint py"[OK] Saved capture_proc.jpg";
            EOcr [[0; 255]; [0; 255]]%Z py"eng" py"--oem 3 --psm 6"]
           sample_frame [[0; 255]; [0; 255]]%Z py"hello" py"yes" _ _ _ _ _));
    reflexivity.
Defined.

(** X19: the answers that start the transmission are exactly "y" and "Y",
    with any whitespace around them. *)
Theorem yes_answers :
  forall line : str,
    str_eqb (lower (strip line)) py"y" = true
    <-> strip line = py"y" \/ strip line = py"Y".
Proof.
  intros line. destruct (strip line) as [|c [|d s]].
  - split; [discriminate|intros [H|H]; discriminate].
  - unfold lower. cbn [map str_eqb of_string].
    change (N_of_ascii "y") with 121. change (N_of_ascii "Y") with 89.
    rewrite andb_true_r. split.
    + destruct ((65 <=? c) && (c <=? 90)) eqn:E; intros H;
        apply N.eqb_eq in H.
      * right. f_equal. lia.
      * left. f_equal. exact H.
    + intros [[= ->]|[= ->]]; reflexivity.
  - split; [|intros [H|H]; discriminate].
    unfold lower. cbn [map str_eqb of_string]. rewrite andb_false_r.
    discriminate.
Qed.

(** X20: after the capture of a frame with pixels the run goes to its
    end: when the libraries raise instances of [Exception] only, what the
    run prints of the outside world can be encoded, and the operator's
    answer can be read, [main] returns normally, even if the OCR engine or
    the serial port failed.  If the operator agreed, the transmit step is
    run on the recognized text and the last line is "[OK] Send complete"
    (also after a failed or skipped transmission); otherwise nothing is
    sent and the last line is "Skipped sending.". *)
Theorem main_returns_after_capture :
  forall (cfg : Config) (w : World) (fuel : nat) (t1 : trace) (frame : raster),
    (0 < MAX_CHARS_PER_CHUNK cfg)%nat ->
    no_interrupts w ->
    console_safe w ->
    capture_frame cfg w fuel [EPrint (py"[OK] Starting capture" ++ ellipsis)]
    = (t1, Ret frame) ->
    no_pixels frame = false ->
    (forall t img s, ocr_engine w t img = Ret s -> (length s <= fuel)%nat) ->
    (forall t, exists line, stdin_line w t = Ret line) ->
    exists (proc : gray_image) (t2 : trace) (text line : str),
      preprocess_for_ocr w frame = Ret proc
      /\ ocr_image cfg w proc (t1 ++ saved_events frame proc) = (t2, Ret text)
      /\ stdin_line w (t2 ++ result_events text) = Ret line
      /\ if str_eqb (lower (strip line)) py"y"
         then
           exists mid,
             send_to_esp32 cfg w fuel (Some text) None
               (t2 ++ result_events text
                   ++ [prompt; EPrint (py"[OK] Sending to ESP32" ++ ellipsis)])
             = ((t2 ++ result_events text
                    ++ [prompt; EPrint (py"[OK] Sending to ESP32" ++ ellipsis)])
                  ++ mid, Ret tt)
             /\ main cfg w fuel []
                = (t2 ++ result_events text
                      ++ [prompt; EPrint (py"[OK] Sending to ESP32" ++ ellipsis)]
                      ++ mid ++ [EPrint py"[OK] Send complete"], Ret tt)
         else
           main cfg w fuel []
           = (t2 ++ result_events text ++ [prompt; EPrint py"Skipped sending."],
              Ret tt).
Proof.
  intros cfg w fuel t1 frame Hpos Hquiet _ Hcap Hpix Hlen Hin.
  pose proof (preprocess_for_ocr_returns w frame Hpix) as Hpre.
  match type of Hpre with _ = Ret ?p => set (proc := p) in * end.
  exists proc.
  destruct (@ocr_image_returns cfg w Hquiet proc (t1 ++ saved_events frame proc))
    as [t2 [text [Hocr Htext]]].
  exists t2, text.
  destruct (Hin (t2 ++ result_events text)) as [line Hline].
  exists line. split; [exact Hpre|]. split; [exact Hocr|].
  split; [exact Hline|].
  rewrite (main_from_text cfg w fuel Hcap Hpre Hocr), Hline.
  destruct (str_eqb (lower (strip line)) py"y"); [|reflexivity].
  assert (Hfuel : (length (normalize (Some text)) <= fuel)%nat).
  { eapply Nat.le_trans; [apply length_normalize|].
    destruct Htext as [->|Htext]; [simpl; lia | exact (Hlen _ _ _ Htext)]. }
  destruct (@send_to_esp32_returns cfg w Hpos Hquiet fuel (Some text) None
              (t2 ++ result_events text
                  ++ [prompt; EPrint (py"[OK] Sending to ESP32" ++ ellipsis)])
              Hfuel) as [mid Hsend].
  exists mid. split; [exact Hsend|].
  rewrite Hsend, <- !app_assoc. reflexivity.
Qed.

Lemma main_returns_after_capture_witness :
  exists mid,
    main config
      (set_serial
         (sample_world false NoFuel [py"/dev/ttyACM0"] [] (ProcExit 0 [])
            (Some sample_frame) (Ret py"hello") py" Y ")
         (fun _ _ => Some (LibraryError py"could not open port"))
         (fun _ _ => None) (fun _ => None))
      5 []
    = ([EPrint (py"[OK] Starting capture" ++ ellipsis);
        ERun (rpicam_cmd config); EImread py"capture_rpicam.jpg"]
         ++ saved_events sample_frame [[0; 255]; [0; 255]]%Z
         ++ [EOcr [[0; 255]; [0; 255]]%Z py"eng" py"--oem 3 --psm 6"]
         ++ result_events py"hello"
         ++ [prompt; EPrint (py"[OK] Sending to ESP32" ++ ellipsis)]
         ++ mid ++ [EPrint py"[OK] Send complete"], Ret tt).
Proof.
  destruct (@main_returns_after_capture config
              (set_serial
                 (sample_world false NoFuel [py"/dev/ttyACM0"] [] (ProcExit 0 [])
                    (Some sample_frame) (Ret py"hello") py" Y ")
                 (fun _ _ => Some (LibraryError py"could not open port"))
                 (fun _ _ => None) (fun _ => None))
              5
              [EPrint (py"[OK] Starting capture" ++ ellipsis);
               ERun (rpicam_cmd config); EImread py"capture_rpicam.jpg"]
              sample_frame)
    as [proc [t2 [text [line [Hpre [Hocr [Hline Hmain]]]]]]].
  - simpl. lia.
  - repeat split; simpl; try discriminate.
    intros _ _ e H. apply some_eq in H. subst e. reflexivity.
  - repeat split; simpl; try discriminate.
    + intros _ pat. destruct (str_eqb pat _); repeat constructor; discriminate.
    + intros _ _ s H. apply some_ret in H. subst s. discriminate.
    + intros _ _ e H. apply some_eq in H. subst e. discriminate.
  - reflexivity.
  - reflexivity.
  - simpl. intros _ _ s H. apply some_ret in H. subst s. simpl. lia.
  - intros t. now exists py" Y ".
  - apply some_ret in Hpre. subst proc.
    apply (f_equal snd) in Hocr as Htext. cbn [snd] in Htext.
    apply some_ret in Htext. subst text.
    apply (f_equal fst) in Hocr. cbn [fst] in Hocr. subst t2.
    apply some_ret in Hline. subst line.
    destruct Hmain as [mid [_ Hmain]]. exists mid. exact Hmain.
Defined.

(** A run in which the port cannot be opened: the error is reported and
    the run still ends with "[OK] Send complete". *)
Example main_with_broken_port :
  main config
    (set_serial
       (sample_world false NoFuel [py"/dev/ttyACM0"] [] (ProcExit 0 [])
          (Some sample_frame) (Ret py"hello") py" Y ")
       (fun _ _ => Some (LibraryError py"could not open port"))
       (fun _ _ => None) (fun _ => None))
    5 []
  = ([EPrint (py"[OK] Starting capture" ++ ellipsis);
      ERun (rpicam_cmd config); EImread py"capture_rpicam.jpg";
      EImwriteColor py"capture_raw.jpg" sample_frame;
      EPrint py"[OK] Saved capture_raw.jpg";
      EImwriteGray py"capture_proc.jpg" [[0; 255]; [0; 255]]%Z;
      EPrint py"[OK] Saved capture_proc.jpg";
      EOcr [[0; 255]; [0; 255]]%Z py"eng" py"--oem 3 --psm 6";
      EPrint py"[OK] OCR complete";
      EPrint (10 :: py"===== OCR RESULT =====");
      EPrint py"hello";
      EPrint (py"======================" ++ [10]);
      prompt;
      EPrint (py"[OK] Sending to ESP32" ++ ellipsis);
      EGlob py"/dev/ttyACM*"; EGlob py"/dev/ttyUSB*";
      connecting config py"/dev/ttyACM0";
      ESerialOpen py"/dev/ttyACM0" 115200 2;
      EPrint py"Serial error: could not open port";
      EPrint py"[OK] Send complete"],
     Ret tt).
Proof. vm_compute. reflexivity. Qed.

Section LineLength.

Lemma length_encode_char c bs :
  encode_char c = Some bs -> (length bs <= 4)%nat.
Proof.
  unfold encode_char.
  destruct (c <? 128); [intros E; apply some_eq in E; subst; simpl; lia|].
  destruct (c <? 2048); [intros E; apply some_eq in E; subst; simpl; lia|].
  destruct ((55296 <=? c) && (c <=? 57343)); [discriminate|].
  destruct (c <? 65536); intros E; apply some_eq in E; subst; simpl; lia.
Qed.

Lemma length_encode_utf8 s :
  forall d, encode_utf8 s = Some d -> (length d <= 4 * length s)%nat.
Proof.
  induction s as [|c s IH]; intros d; simpl.
  - intros E. apply some_eq in E. subst. simpl. lia.
  - destruct (encode_char c) as [bs|] eqn:Ec; [|discriminate].
    destruct (encode_utf8 s) as [ds|]; [|discriminate].
    intros E. apply some_eq in E. subst d.
    rewrite length_app. pose proof (length_encode_char _ Ec).
    specialize (IH ds eq_refl). lia.
Qed.

Variable cfg : Config.
Variable w : World.

Lemma write_loop_line_lengths fuel :
  forall (payload : str) (t : trace),
    exists mid o,
      write_loop cfg w fuel payload t = (t ++ mid, o)
      /\ Forall (line_within (4 * MAX_CHARS_PER_CHUNK cfg + 1)) mid.
Proof.
  induction fuel as [|fuel IH]; intros payload t.
  - exists []. rewrite app_nil_r.
    destruct payload; eexists; (split; [reflexivity|constructor]).
  - destruct payload as [|c p].
    + exists [], (Ret tt). rewrite app_nil_r. split; [reflexivity|constructor].
    + cbn [write_loop]. unfold slice_to, slice_from, encode.
      destruct (encode_utf8 _) as [d|] eqn:Ed.
      * assert (Hline : line_within (4 * MAX_CHARS_PER_CHUNK cfg + 1)
                          (ESerialWrite (d ++ [10]))).
        { unfold line_within. rewrite length_app.
          pose proof (length_encode_utf8 _ Ed) as Hd.
          pose proof (firstn_le_length (MAX_CHARS_PER_CHUNK cfg) (c :: p)).
          simpl length in *. lia. }
        unfold sleep, emit, bind at 1 2 3, call, ret, may_raise.
        destruct (serial_write w t (d ++ [10])) as [e|].
        { exists [ESerialWrite (d ++ [10])], (Raise e). split; [reflexivity|].
          repeat constructor. exact Hline. }
        destruct (serial_flush w _) as [e|].
        { exists [ESerialWrite (d ++ [10]); ESerialFlush], (Raise e).
          rewrite <- app_assoc. split; [reflexivity|].
          repeat constructor. exact Hline. }
        unfold bind.
        destruct (IH (skipn (MAX_CHARS_PER_CHUNK cfg) (c :: p))
                    (((t ++ [ESerialWrite (d ++ [10])]) ++ [ESerialFlush])
                       ++ [ESleep 150])) as [mid [o [Hrun Hmid]]].
        rewrite Hrun.
        exists (sent d ++ mid), o. unfold sent. rewrite <- !app_assoc.
        split; [reflexivity|]. repeat constructor; try assumption; exact I.
      * eexists [], _. rewrite app_nil_r. split; [reflexivity|constructor].
Qed.

End LineLength.

(** X21: whatever the text and the device, no write of the chunk loop is
    longer than four bytes per character of a full chunk plus the
    newline: 481 bytes with the chunk size of the source. *)
Theorem write_loop_line_bound :
  forall (w : World) (fuel : nat) (payload : str) (t : trace),
    exists mid,
      fst (write_loop config w fuel payload t) = t ++ mid
      /\ Forall (line_within 481) mid.
Proof.
  intros w fuel payload t.
  destruct (write_loop_line_lengths config w fuel payload t)
    as [mid [o [Hrun Hmid]]].
  exists mid. rewrite Hrun. split; [reflexivity|exact Hmid].
Qed.
